(** * The L'Oreal chat widget (script.js): session state, transcript
      trimming, context building, name detection and the send lifecycle.

    The widget keeps three globals (isSending, userContext, messages) and
    reacts to the submit event of the chat form.  The embedding below keeps
    the globals in one record that every function receives and returns, and
    splits the asynchronous submit handler at its single suspension point
    (the awaited call of getOpenAIReply).  Of the page, the record keeps the
    input field's value, the two disabled flags and the children of the
    chat window; focus, scrolling and the console, which none of the
    globals depends on, are left out, and calls into the page are taken not
    to throw.  The theme (the class of the body, the toggle button and the
    stored choice) shares nothing with the chat and has a record of its
    own. *)

From Stdlib Require Import ZArith NArith Floats.PrimFloat DecimalString.
From stdpp Require Import base numbers option list strings gmap.

Set Warnings "-register-all".

Open Scope Z_scope.

(** ** Strings

    A JavaScript string is a sequence of UTF-16 code units. *)

Abbreviation jsstring := (list N).

(** A literal whose characters are all ASCII. *)
Definition str (s : string) : jsstring :=
  Ascii.N_of_ascii <$> String.list_ascii_of_string s.

(** ** JavaScript values, as far as the script handles them

    [value] is [undefined] and what JSON.parse can produce, which is also
    what a reply taken from the backend's JSON can be.  An object is the
    list of its own properties, each name once. *)

Inductive value :=
  | VUndefined
  | VNull
  | VBool (b : bool)
  | VNum (x : float)
  | VStr (s : jsstring)
  | VArr (items : list value)
  | VObj (props : list (jsstring * value)).

(** ToBoolean. *)
Definition truthy (v : value) : bool :=
  match v with
  | VUndefined => false
  | VNull => false
  | VBool b => b
  | VNum x => negb (PrimFloat.eqb x 0%float || PrimFloat.is_nan x)
  | VStr s => negb (bool_decide (s = []))
  | VArr _ => true
  | VObj _ => true
  end.

(** ** The globals *)

Inductive role := system | user | assistant.

Record Message := { msg_role : role; content : value }.

(** An array element: a message, or [undefined] (which only an index read
    past the end of an array can put there). *)
Abbreviation slot := (option Message).

Record UserContext := {
  name : option jsstring;          (* null, or the detected name *)
  pastQuestions : list jsstring
}.

(** What the script reads and writes of the page. *)
Inductive bubble_class := bubble_user | bubble_ai.

Inductive element :=
  | msg (cls : bubble_class) (text : value)   (* div.msg.user or div.msg.ai,
                                                 its textContent set from text *)
  | typingBubble.                             (* the div with id typingBubble *)

Record Page := {
  userInput_value : jsstring;
  userInput_disabled : bool;
  sendBtn_disabled : bool;
  chatWindow : list element
}.

Record Session := {
  isSending : bool;
  userContext : UserContext;
  messages : list slot;
  page : Page
}.

Definition set_isSending (b : bool) (s : Session) : Session :=
  {| isSending := b; userContext := userContext s;
     messages := messages s; page := page s |}.

Definition set_userContext (c : UserContext) (s : Session) : Session :=
  {| isSending := isSending s; userContext := c;
     messages := messages s; page := page s |}.

Definition set_messages (m : list slot) (s : Session) : Session :=
  {| isSending := isSending s; userContext := userContext s;
     messages := m; page := page s |}.

Definition set_page (p : Page) (s : Session) : Session :=
  {| isSending := isSending s; userContext := userContext s;
     messages := messages s; page := p |}.

(** ** Array primitives *)

(** [a[i]]: [undefined] past the end. *)
Definition index (a : list slot) (i : nat) : slot :=
  default None (a !! i).

(** [a.slice(start)], for an integer [start]. *)
Definition slice {A} (start : Z) (a : list A) : list A :=
  let len := Z.of_nat (length a) in
  let k := if start <? 0 then Z.max (len + start) 0 else Z.min start len in
  drop (Z.to_nat k) a.

(** [a.push(x)] *)
Definition push {A} (x : A) (a : list A) : list A := a ++ [x].

(** ** trimConversation (script.js, lines 206-217) *)

Definition trimConversation (maxMessages : option Z) (s : Session) : Session :=
  let maxMessages := default 40 maxMessages in
  let s :=
    if Z.of_nat (length (messages s)) >? maxMessages then
      let system := index (messages s) 0 in
      set_messages (system :: slice (- maxMessages) (messages s)) s
    else s in
  if Z.of_nat (length (pastQuestions (userContext s))) >? 20 then
    set_userContext
      {| name := name (userContext s);
         pastQuestions := slice (-10) (pastQuestions (userContext s)) |} s
  else s.

(** ** buildMessagesWithContext (script.js, lines 155-177) *)

(** A string used as a condition: the empty string is falsy. *)
Definition truthy_string (t : jsstring) : bool := negb (bool_decide (t = [])).

(** [parts.join(sep)] on an array of strings. *)
Fixpoint join (sep : jsstring) (parts : list jsstring) : jsstring :=
  match parts with
  | [] => []
  | [p] => p
  | p :: more => p ++ sep ++ join sep more
  end.

Definition contextParts (c : UserContext) : list jsstring :=
  let contextParts := [] in
  let contextParts :=
    match name c with
    | Some n =>
        if truthy_string n
        then push (str "User's name: " ++ n ++ str ".") contextParts
        else contextParts
    | None => contextParts
    end in
  if negb (length (pastQuestions c) =? 0)%nat
  then push (str "User previously asked about: "
               ++ join (str "; ") (pastQuestions c) ++ str ".") contextParts
  else contextParts.

Definition contextBlock (c : UserContext) : jsstring :=
  if negb (length (contextParts c) =? 0)%nat
  then str "Conversation context: " ++ join (str " ") (contextParts c)
  else str "Conversation context: (none yet)".

Definition buildMessagesWithContext (s : Session) : list slot :=
  let baseSystem := index (messages s) 0 in
  let convo := slice 1 (messages s) in
  baseSystem
    :: Some {| msg_role := system; content := VStr (contextBlock (userContext s)) |}
    :: convo.

(** ** Regular expressions, as far as the name patterns use them

    The four patterns of detectAndStoreName are built from literal
    characters, the assertion \b, greedy repetitions x+ and x{2,} of a
    character set, and one capturing group, all under the flag i.  The
    matcher is the backtracking matcher of the language definition, written
    with continuations: a matcher receives the state reached so far and the
    continuation that matches the rest of the pattern. *)

Module RegExp.

Inductive class_item :=
  | One (c : N)               (* a single character *)
  | Range (lo hi : N)         (* lo-hi *)
  | WhiteSpace.               (* \s *)

Inductive regex :=
  | Empty
  | Set_ (cs : list class_item)                (* one character of a set *)
  | WordBoundary                               (* \b *)
  | AtLeast (min : nat) (cs : list class_item) (* greedy cs{min,} *)
  | Seq (r1 r2 : regex)
  | Group (r : regex).                         (* ( ... ), group 1 *)

Record RegExp := { source : regex; ignoreCase : bool }.

(** The characters \s stands for: white space and line terminators. *)
Definition white_space : list N :=
  [9; 10; 11; 12; 13; 32; 160; 5760;
   8192; 8193; 8194; 8195; 8196; 8197; 8198; 8199; 8200; 8201; 8202;
   8232; 8233; 8239; 8287; 12288; 65279]%N.

Definition members (i : class_item) : list N :=
  match i with
  | One c => [c]
  | Range lo hi =>
      (fun k => (lo + N.of_nat k)%N) <$> seq 0 (N.to_nat (N.succ hi - lo))
  | WhiteSpace => white_space
  end.

(** String.prototype.toUpperCase on one code unit; [None] when the result
    is not a single code unit (U+00DF becomes SS).  The table is exact up
    to U+00FF.  Above U+00FF it is not reproduced and the code unit is
    kept: no code unit up there has an upper-case form among the
    characters of the name patterns, so matching them is not affected. *)
Definition toUpperCase (ch : N) : option N :=
  if ((97 <=? ch) && (ch <=? 122))%N then Some (ch - 32)%N
  else if (ch =? 181)%N then Some 924%N
  else if (ch =? 223)%N then None
  else if ((224 <=? ch) && (ch <=? 254) && negb (ch =? 247))%N
       then Some (ch - 32)%N
  else if (ch =? 255)%N then Some 376%N
  else Some ch.

(** Canonicalize, without the flag u. *)
Definition Canonicalize (ignoreCase : bool) (ch : N) : N :=
  if negb ignoreCase then ch
  else match toUpperCase ch with
       | None => ch
       | Some cu => if ((128 <=? ch) && (cu <? 128))%N then ch else cu
       end.

(** A character matches a set when some member of the set has the same
    canonical form. *)
Definition set_matches (ignoreCase : bool) (cs : list class_item) (ch : N)
  : bool :=
  existsb
    (fun a => (Canonicalize ignoreCase a =? Canonicalize ignoreCase ch)%N)
    (cs ≫= members).

(** The word characters of \b: a-z, A-Z, 0-9 and _ *)
Definition IsWordChar (ch : option N) : bool :=
  match ch with
  | None => false
  | Some c =>
      ((97 <=? c) && (c <=? 122) || (65 <=? c) && (c <=? 90)
       || (48 <=? c) && (c <=? 57) || (c =? 95))%N
  end.

(** The state of a match: the character before the current position, the
    input from the current position on, and what group 1 captured. *)
Record MatchState := {
  before : option N;
  rest : jsstring;
  capture1 : option jsstring
}.

Definition Continuation := MatchState -> option MatchState.

(** Greedy repetition of a set: take one more character when that leads to
    a match of the whole, else stop here if [min] characters were taken. *)
Fixpoint repeat_set (ic : bool) (cs : list class_item) (min : nat)
    (prev : option N) (input : jsstring) (cap : option jsstring)
    (k : Continuation) : option MatchState :=
  let stop :=
    match min with
    | O => k {| before := prev; rest := input; capture1 := cap |}
    | S _ => None
    end in
  match input with
  | ch :: input' =>
      if set_matches ic cs ch then
        match repeat_set ic cs (pred min) (Some ch) input' cap k with
        | Some y => Some y
        | None => stop
        end
      else stop
  | [] => stop
  end.

Fixpoint matcher (r : regex) (ic : bool) (x : MatchState) (k : Continuation)
  : option MatchState :=
  match r with
  | Empty => k x
  | Set_ cs =>
      match rest x with
      | ch :: input' =>
          if set_matches ic cs ch
          then k {| before := Some ch; rest := input';
                    capture1 := capture1 x |}
          else None
      | [] => None
      end
  | WordBoundary =>
      if xorb (IsWordChar (before x)) (IsWordChar (head (rest x)))
      then k x else None
  | AtLeast min cs =>
      repeat_set ic cs min (before x) (rest x) (capture1 x) k
  | Seq r1 r2 => matcher r1 ic x (fun y => matcher r2 ic y k)
  | Group r1 =>
      matcher r1 ic x (fun y =>
        k {| before := before y; rest := rest y;
             capture1 :=
               Some (take (length (rest x) - length (rest y)) (rest x)) |})
  end.

(** The search of a regular expression without the flags g and y: the
    match is tried at every position from the start of the string on, and
    the first position where it succeeds wins. *)
Fixpoint search (re : RegExp) (prev : option N) (input : jsstring)
  : option MatchState :=
  match matcher (source re) (ignoreCase re)
          {| before := prev; rest := input; capture1 := None |} Some with
  | Some y => Some y
  | None =>
      match input with
      | ch :: input' => search re (Some ch) input'
      | [] => None
      end
  end.

(** [s.match(re)]: [None] is null; of the result array, only element 1
    (the capture) is kept. *)
Definition String_match (s : jsstring) (re : RegExp) : option (option jsstring) :=
  capture1 <$> search re None s.

(** A literal run of characters. *)
Definition lit (s : string) : regex :=
  foldr (fun c r => Seq (Set_ [One c]) r) Empty (str s).

Definition cat (rs : list regex) : regex := foldr Seq Empty rs.

End RegExp.

(** [s.trim()] removes the white space and line terminators at both ends. *)
Definition is_white_space (ch : N) : bool :=
  bool_decide (ch ∈ RegExp.white_space).

Fixpoint trimStart (s : jsstring) : jsstring :=
  match s with
  | ch :: s' => if is_white_space ch then trimStart s' else s
  | [] => []
  end.

Definition trim (s : jsstring) : jsstring :=
  reverse (trimStart (reverse (trimStart s))).

(** ** detectAndStoreName (script.js, lines 184-201) *)

(** [A-Za-zÀ-ÖØ-öø-ÿ' -] *)
Definition name_chars : list RegExp.class_item :=
  [RegExp.Range 65 90; RegExp.Range 97 122;
   RegExp.Range 192 214; RegExp.Range 216 246; RegExp.Range 248 255;
   RegExp.One 39; RegExp.One 32; RegExp.One 45]%N.

(** \s+([A-Za-zÀ-ÖØ-öø-ÿ' -]{2,}) *)
Definition name_tail : list RegExp.regex :=
  [RegExp.AtLeast 1 [RegExp.WhiteSpace];
   RegExp.Group (RegExp.AtLeast 2 name_chars)].

Definition patterns : list RegExp.RegExp :=
  [ {| RegExp.source := RegExp.cat (RegExp.lit "my name is" :: name_tail);
       RegExp.ignoreCase := true |};
    {| RegExp.source :=
         RegExp.cat (RegExp.WordBoundary :: RegExp.lit "i am" :: name_tail);
       RegExp.ignoreCase := true |};
    {| RegExp.source :=
         RegExp.cat (RegExp.WordBoundary :: RegExp.lit "i'm" :: name_tail);
       RegExp.ignoreCase := true |};
    {| RegExp.source :=
         RegExp.cat (RegExp.WordBoundary :: RegExp.lit "im" :: name_tail);
       RegExp.ignoreCase := true |} ].

(** The for loop over the patterns, with its break. *)
Fixpoint detect_loop (res : list RegExp.RegExp) (message : jsstring)
    (c : UserContext) : UserContext :=
  match res with
  | [] => c
  | re :: more =>
      match RegExp.String_match message re with
      | Some (Some m1) =>
          if truthy_string m1
          then {| name := Some (trim m1); pastQuestions := pastQuestions c |}
          else detect_loop more message c
      | _ => detect_loop more message c
      end
  end.

Definition name_is_set (c : UserContext) : bool :=
  match name c with
  | Some n => truthy_string n
  | None => false
  end.

Definition detectAndStoreName (message : jsstring) (s : Session) : Session :=
  if name_is_set (userContext s) then s
  else set_userContext (detect_loop patterns message (userContext s)) s.

(** ** getOpenAIReply (script.js, lines 220-242) *)

(** How a call ends: it returns, or it throws (for an async function: its
    promise is fulfilled or rejected). *)
Inductive error :=
  | Error (message : value)   (* new Error(message) *)
  | PlatformError.            (* fetch rejecting, the body failing to parse *)

Inductive completion (A : Type) :=
  | Returned (a : A)
  | Thrown (e : error).
Arguments Returned {A} a.
Arguments Thrown {A} e.

#[export] Instance completion_bind : MBind completion :=
  fun A B f c =>
    match c with
    | Returned a => f a
    | Thrown e => Thrown e
    end.

(** What the network does with the request: [fetch] rejects, or a response
    arrives with a status and a body that is JSON or not. *)
Record Response := { status : N; body : option value }.

Inductive Network :=
  | Unreachable
  | Responds (res : Response).

Definition fetch (net : Network) : completion Response :=
  match net with
  | Unreachable => Thrown PlatformError
  | Responds res => Returned res
  end.

(** [res.json()] *)
Definition json (res : Response) : completion value :=
  match body res with
  | Some data => Returned data
  | None => Thrown PlatformError
  end.

(** [res.ok]: the status is in the range 200-299. *)
Definition ok (res : Response) : bool :=
  ((200 <=? status res) && (status res <=? 299))%N.

(** The property keys the script reads. *)
Inductive key :=
  | Name (n : string)      (* .n *)
  | Index (i : nat).       (* [i] *)

Definition decimal (n : N) : jsstring :=
  str (NilZero.string_of_uint (N.to_uint n)).

Definition key_name (k : key) : jsstring :=
  match k with
  | Name n => str n
  | Index i => decimal (N.of_nat i)
  end.

(** [v?.k] for the keys the script reads (choices, message, content, reply,
    error and 0), none of which objects, arrays, strings, numbers or
    booleans inherit. *)
Definition get (v : value) (k : key) : value :=
  match v with
  | VUndefined => VUndefined
  | VNull => VUndefined
  | VObj props =>
      default VUndefined (snd <$> head (filter (fun p => p.1 = key_name k) props))
  | VArr items =>
      match k with
      | Index i => default VUndefined (items !! i)
      | Name _ => VUndefined
      end
  | VStr s =>
      match k with
      | Index i => default VUndefined ((fun ch => VStr [ch]) <$> s !! i)
      | Name _ => VUndefined
      end
  | VBool _ => VUndefined
  | VNum _ => VUndefined
  end.

Notation "v ?. k" := (get v k) (at level 25, left associativity).

(** The function from the point where [fetch] has been called: [net] is what
    the network answers. *)
Definition getOpenAIReply (net : Network) : completion value :=
  res ← fetch net;
  data ← json res;
  if negb (ok res) then
    Thrown (Error (if truthy (data ?. Name "error") then data ?. Name "error"
                   else VStr (str "HTTP " ++ decimal (status res))))
  else if truthy (data ?. Name "choices" ?. Index 0 ?. Name "message" ?. Name "content")
  then Returned (data ?. Name "choices" ?. Index 0 ?. Name "message" ?. Name "content")
  else if truthy (data ?. Name "reply") then Returned (data ?. Name "reply")
  else Thrown (Error (VStr (str "Unexpected response shape from Worker"))).

(** ** The page helpers (script.js, lines 124-149) *)

Definition set_chatWindow (w : list element) (p : Page) : Page :=
  {| userInput_value := userInput_value p;
     userInput_disabled := userInput_disabled p;
     sendBtn_disabled := sendBtn_disabled p;
     chatWindow := w |}.

(** The bubble records the value that [el.textContent = text] is given.
    The page shows the string conversion of that value, which for a text
    is the text itself. *)
Definition appendMessage (cls : bubble_class) (text : value) (s : Session)
  : Session :=
  set_page (set_chatWindow (push (msg cls text) (chatWindow (page s))) (page s)) s.

Definition is_typingBubble (e : element) : bool :=
  match e with
  | typingBubble => true
  | msg _ _ => false
  end.

Definition showTypingBubble (s : Session) : Session :=
  if existsb is_typingBubble (chatWindow (page s)) then s
  else set_page (set_chatWindow (push typingBubble (chatWindow (page s))) (page s)) s.

(** Removes the first element with the id typingBubble. *)
Fixpoint remove_typingBubble (w : list element) : list element :=
  match w with
  | [] => []
  | e :: w' => if is_typingBubble e then w' else e :: remove_typingBubble w'
  end.

Definition hideTypingBubble (s : Session) : Session :=
  set_page (set_chatWindow (remove_typingBubble (chatWindow (page s))) (page s)) s.

(** ** The constants and the state the script starts from *)

(** The right single quotation mark and the e with acute accent of
    "L'Oreal" as the script spells it. *)
Definition LOreal : jsstring := str "L" ++ [8217%N] ++ str "Or" ++ [233%N] ++ str "al".

Definition BASE_SYSTEM_PROMPT : jsstring :=
  str "You are " ++ LOreal ++ [8217%N] ++ str "s virtual product advisor." ++ [10%N]
  ++ str "- Answer only questions related to " ++ LOreal
  ++ str " products, beauty routines, hair care, skincare, makeup, ingredients, and recommendations." ++ [10%N]
  ++ str "- If a user asks about unrelated topics, politely redirect them back to " ++ LOreal
  ++ str " products and services." ++ [10%N]
  ++ str "- Be friendly, concise, professional and a little funny. Explain ingredients and routines clearly, avoid unverified medical claims." ++ [10%N]
  ++ str "- Encourage safe use (e.g., patch tests) and consulting a dermatologist if needed.".

Definition base_system : Message :=
  {| msg_role := system; content := VStr BASE_SYSTEM_PROMPT |}.

Definition greeting : jsstring :=
  [55357%N; 56395%N] ++ str " Hi! I" ++ [8217%N] ++ str "m your " ++ LOreal
  ++ str " product advisor. Ask me about routines, ingredients, or which product fits your needs.".

Definition fallback : jsstring :=
  [9888%N; 65039%N] ++ str " Sorry, I" ++ [8217%N]
  ++ str "m having trouble answering right now. Please try again.".

(** The globals as the script initialises them, with the greeting already
    in the chat window.  The input field starts empty and enabled. *)
Definition init : Session :=
  appendMessage bubble_ai (VStr greeting)
    {| isSending := false;
       userContext := {| name := None; pastQuestions := [] |};
       messages := [Some base_system];
       page := {| userInput_value := []; userInput_disabled := false;
                  sendBtn_disabled := false; chatWindow := [] |} |}.

(** ** The submit handler (script.js, lines 51-97)

    The handler runs up to [await getOpenAIReply(...)], where it has called
    [fetch] with the built payload, and is resumed when that call has
    completed.  [submit] is the first part and yields the payload sent, if
    any; [resume] is the second part, given how the call completed. *)

Definition lock_input (p : Page) : Page :=
  {| userInput_value := []; userInput_disabled := true;
     sendBtn_disabled := true; chatWindow := chatWindow p |}.

Definition unlock_input (p : Page) : Page :=
  {| userInput_value := userInput_value p; userInput_disabled := false;
     sendBtn_disabled := false; chatWindow := chatWindow p |}.

Definition push_message (r : role) (c : value) (s : Session) : Session :=
  set_messages (push (Some {| msg_role := r; content := c |}) (messages s)) s.

Definition push_pastQuestion (q : jsstring) (s : Session) : Session :=
  set_userContext
    {| name := name (userContext s);
       pastQuestions := push q (pastQuestions (userContext s)) |} s.

Definition submit (s : Session) : Session * option (list slot) :=
  if isSending s then (s, None)
  else
    let content := trim (userInput_value (page s)) in
    if negb (truthy_string content) then (s, None)
    else
      let s := set_page (lock_input (page s)) s in
      let s := set_isSending true s in
      let s := appendMessage bubble_user (VStr content) s in
      let s := push_message user (VStr content) s in
      let s := push_pastQuestion content s in
      let s := detectAndStoreName content s in
      let s := trimConversation None s in
      let s := showTypingBubble s in
      (s, Some (buildMessagesWithContext s)).

Definition resume (c : completion value) (s : Session) : Session :=
  let s :=
    match c with
    | Returned reply =>
        let s := push_message assistant reply s in
        let s := hideTypingBubble s in
        appendMessage bubble_ai reply s
    | Thrown err =>
        let s := hideTypingBubble s in
        appendMessage bubble_ai (VStr fallback) s
    end in
  let s := set_page (unlock_input (page s)) s in
  set_isSending false s.

(** ** The event loop

    The script's code runs only in reaction to events: the visitor editing
    the input field, the form being submitted, and the network answering a
    request that is waiting.  [pending] holds the payloads of the calls of
    getOpenAIReply that have not completed yet. *)

Record World := { session : Session; pending : list (list slot) }.

Inductive event :=
  | Typed (text : jsstring)
  | Submit
  | Answered (i : nat) (net : Network).

Definition set_userInput_value (text : jsstring) (p : Page) : Page :=
  {| userInput_value := text; userInput_disabled := userInput_disabled p;
     sendBtn_disabled := sendBtn_disabled p; chatWindow := chatWindow p |}.

Definition step (w : World) (e : event) : World :=
  match e with
  | Typed text =>
      {| session := set_page (set_userInput_value text (page (session w))) (session w);
         pending := pending w |}
  | Submit =>
      match submit (session w) with
      | (s, Some payload) => {| session := s; pending := push payload (pending w) |}
      | (s, None) => {| session := s; pending := pending w |}
      end
  | Answered i net =>
      match pending w !! i with
      | Some _ =>
          {| session := resume (getOpenAIReply net) (session w);
             pending := delete i (pending w) |}
      | None => w
      end
  end.

Definition run (w : World) (es : list event) : World := foldl step w es.

Definition start : World := {| session := init; pending := [] |}.

(** The operations of the transcript store during the lifecycle. *)
Inductive transcript_op :=
  | append_user (content : jsstring)
  | append_assistant (reply : value)
  | trim_op (maxMessages : option Z).

Definition apply_op (s : Session) (o : transcript_op) : Session :=
  match o with
  | append_user c => push_message user (VStr c) s
  | append_assistant r => push_message assistant r s
  | trim_op m => trimConversation m s
  end.

(** ** The theme (script.js, lines 99-120)

    [dark_mode] says whether the body has the class dark-mode, [darkToggle]
    is the button with the id darkModeToggle, or null, and [localStorage]
    is the storage of the page's origin, which outlives the page. *)

Record Toggle := { textContent : jsstring; aria_pressed : jsstring }.

Record Theme := {
  dark_mode : bool;
  darkToggle : option Toggle;
  localStorage : gmap (list N) (list N)
}.

Definition syncToggleLabel (isDark : bool) (t : Theme) : Theme :=
  match darkToggle t with
  | None => t
  | Some _ =>
      {| dark_mode := dark_mode t;
         darkToggle :=
           Some {| textContent := if isDark then str "Light Mode" else str "Dark Mode";
                   aria_pressed := if isDark then str "true" else str "false" |};
         localStorage := localStorage t |}
  end.

Definition initTheme (t : Theme) : Theme :=
  let saved := localStorage t !! str "theme" in
  let wantsDark := bool_decide (saved = Some (str "dark")) in
  syncToggleLabel wantsDark
    {| dark_mode := wantsDark; darkToggle := darkToggle t;
       localStorage := localStorage t |}.

(** The click listener of the toggle, which is registered only when the
    button exists. *)
Definition toggle_click (t : Theme) : Theme :=
  match darkToggle t with
  | None => t
  | Some _ =>
      let nowDark := negb (dark_mode t) in
      syncToggleLabel nowDark
        {| dark_mode := nowDark; darkToggle := darkToggle t;
           localStorage :=
             <[str "theme" := if nowDark then str "dark" else str "light"]>
               (localStorage t) |}
  end.

(** A new load of the page: the body and the button are as the document
    has them, the storage is what the last page left, and the script runs
    initTheme. *)
Definition load (body_dark : bool) (button : option Toggle)
    (storage : gmap (list N) (list N)) : Theme :=
  initTheme {| dark_mode := body_dark; darkToggle := button;
               localStorage := storage |}.

(** * What the specification's words stand for, and sample inputs *)

(** The last [n] elements of a sequence, in order. *)
Definition last_n {A} (n : nat) (l : list A) : list A :=
  drop (length l - n) l.


(** The session after [n] questions have been appended to the initial
    transcript: [n + 1] messages. *)
Definition after_appends (n : nat) : Session :=
  foldl apply_op init (replicate n (append_user (str "hi"))).


(** Parts written one after the other with a separator between them: the
    first part, then each later part after the separator. *)
Fixpoint each_after (sep : jsstring) (parts : list jsstring) : jsstring :=
  match parts with
  | [] => []
  | p :: more => sep ++ p ++ each_after sep more
  end.

Definition separated (sep : jsstring) (parts : list jsstring) : jsstring :=
  match parts with
  | [] => []
  | p :: more => p ++ each_after sep more
  end.

Definition name_sentence (n : jsstring) : jsstring :=
  str "User's name: " ++ n ++ str ".".

Definition questions_sentence (qs : list jsstring) : jsstring :=
  str "User previously asked about: " ++ separated (str "; ") qs ++ str ".".

(** The context text as the claim words it: the prefix, then the name
    sentence when a name is set (to whatever text), then the sentence of
    the earlier questions when there are any, separated by a space when
    both are there; the text "(none yet)" after the prefix when neither is
    there. *)
Definition claimed_context_text (c : UserContext) : jsstring :=
  match name c, pastQuestions c with
  | Some n, q :: qs =>
      str "Conversation context: " ++ name_sentence n ++ str " "
        ++ questions_sentence (q :: qs)
  | Some n, [] => str "Conversation context: " ++ name_sentence n
  | None, q :: qs => str "Conversation context: " ++ questions_sentence (q :: qs)
  | None, [] => str "Conversation context: (none yet)"
  end.

(** The same, with the name sentence only for a name that is a text with
    at least one character. *)
Definition context_text (c : UserContext) : jsstring :=
  match name c, pastQuestions c with
  | Some (ch :: n), q :: qs =>
      str "Conversation context: " ++ name_sentence (ch :: n) ++ str " "
        ++ questions_sentence (q :: qs)
  | Some (ch :: n), [] => str "Conversation context: " ++ name_sentence (ch :: n)
  | _, q :: qs => str "Conversation context: " ++ questions_sentence (q :: qs)
  | _, [] => str "Conversation context: (none yet)"
  end.

(** The world after a visitor has submitted an introduction with no name
    in it. *)
Definition said_no_name : World :=
  run start [Typed (str "my name is    !"); Submit].

Definition Ana : UserContext :=
  {| name := Some (str "Ana");
     pastQuestions := [str "red lipstick"; str "dry scalp"] |}.

(** A session in which the name Ana is stored. *)
Definition knows_Ana : Session := set_userContext Ana init.

Definition Renae_says : jsstring := str "Hi, I'm Renae and I have dry skin".

(** The two places of a response body where the reply is looked for. *)
Definition choice_content (data : value) : value :=
  data ?. Name "choices" ?. Index 0 ?. Name "message" ?. Name "content".

Definition reply_field (data : value) : value := data ?. Name "reply".

Definition shape_error : error :=
  Error (VStr (str "Unexpected response shape from Worker")).

(** A response with status [st] and the JSON body [data]. *)
Definition answers (st : N) (data : value) : Network :=
  Responds {| status := st; body := Some data |}.

(** The reasons for which the backend call fails: no response arrives, the
    body is not JSON, the status is outside 200-299, or the body has
    neither of the two shapes. *)
Inductive backend_failure : Network -> Prop :=
  | transport_error : backend_failure Unreachable
  | not_json st : backend_failure (Responds {| status := st; body := None |})
  | bad_status res : ok res = false -> backend_failure (Responds res)
  | unexpected_shape st data :
      truthy (choice_content data) = false ->
      truthy (reply_field data) = false ->
      backend_failure (answers st data).

(** {choices: [{message: {content: text}}]} *)
Definition choices_body (text : jsstring) : value :=
  VObj [(str "choices",
         VArr [VObj [(str "message", VObj [(str "content", VStr text)])]])].

(** {choices: [{message: {content: ""}}]} *)
Definition empty_content : value := choices_body [].

(** {choices: [{message: {content: ""}}], reply: "Hello"} *)
Definition empty_content_and_reply : value :=
  VObj [(str "choices",
         VArr [VObj [(str "message", VObj [(str "content", VStr [])])]]);
        (str "reply", VStr (str "Hello"))].

(** {reply: "Hello"} *)
Definition reply_body : value := VObj [(str "reply", VStr (str "Hello"))].

(** {foo: "bar"} *)
Definition foo_bar : value := VObj [(str "foo", VStr (str "bar"))].

(** The world after the visitor has typed a question and submitted it. *)
Definition asked : World := run start [Typed (str "Which shampoo?"); Submit].

(** The flag is set exactly while one call is waiting. *)
Definition guarded (w : World) : Prop :=
  (isSending (session w) = true /\ length (pending w) = 1%nat)
  \/ (isSending (session w) = false /\ pending w = []).

(** ** Words used by the further properties *)

(** A character the name patterns capture: one that matches the set
    [A-Za-zÀ-ÖØ-öø-ÿ' -] under the flag i. *)
Definition name_char (ch : N) : bool := RegExp.set_matches true name_chars ch.

(** The same set, listed: the ASCII letters, the letters of Latin-1, the
    upper-case form of U+00FF (U+0178), the apostrophe, the space and the
    hyphen. *)
Definition listed_name_char (ch : N) : bool :=
  ((65 <=? ch) && (ch <=? 90) || (97 <=? ch) && (ch <=? 122)
   || (192 <=? ch) && (ch <=? 214) || (216 <=? ch) && (ch <=? 246)
   || (248 <=? ch) && (ch <=? 255) || (ch =? 376)
   || (ch =? 39) || (ch =? 32) || (ch =? 45))%N.

(** No white space at either end. *)
Definition clean_ends (s : jsstring) : Prop :=
  (forall ch, head s = Some ch -> is_white_space ch = false)
  /\ (forall ch, last s = Some ch -> is_white_space ch = false).

(** The number of typing bubbles among the children of the chat window. *)
Definition typing_bubbles (w : list element) : nat :=
  length (filter (fun e => is_typingBubble e = true) w).

(** A transcript entry that is a message with a content that is not empty
    (nor any other falsy value). *)
Definition filled (m : slot) : Prop :=
  exists r c, m = Some {| msg_role := r; content := c |} /\ truthy c = true.

(** The controls follow the flag: the typing bubble is in the chat window,
    and the input field and the send button are disabled, exactly while
    isSending is true. *)
Definition controls_follow_flag (s : Session) : Prop :=
  typing_bubbles (chatWindow (page s)) = (if isSending s then 1 else 0)%nat
  /\ userInput_disabled (page s) = isSending s
  /\ sendBtn_disabled (page s) = isSending s.

(** The bounds the transcript and the payloads keep. *)
Definition transcript_bounded (w : World) : Prop :=
  guarded w
  /\ (length (messages (session w)) <= 42)%nat
  /\ (isSending (session w) = true -> (length (messages (session w)) <= 41)%nat)
  /\ Forall (fun payload => (length payload <= 42)%nat) (pending w).

(** No hole and no empty content, in the transcript and in the payloads. *)
Definition all_filled (w : World) : Prop :=
  messages (session w) <> []
  /\ Forall filled (messages (session w))
  /\ Forall (Forall filled) (pending w).

(** The world with white space typed into the input field. *)
Definition blank_typed : World := run start [Typed [32; 9; 10]%N].

(** The character before the position reached after [taken] has been
    consumed, when [prev] was the character before it. *)
Definition before_after (prev : option N) (taken : jsstring) : option N :=
  match last taken with
  | Some ch => Some ch
  | None => prev
  end.

(** [text] is [pattern] up to the case of its letters. *)
Definition same_ignoring_case (pattern text : jsstring) : Prop :=
  Forall2
    (fun a ch => RegExp.Canonicalize true a = RegExp.Canonicalize true ch)
    pattern text.

(** The toggle button as syncToggleLabel leaves it. *)
Definition label_for (isDark : bool) : Toggle :=
  {| textContent := if isDark then str "Light Mode" else str "Dark Mode";
     aria_pressed := if isDark then str "true" else str "false" |}.

(** What the click listener stores for a mode. *)
Definition stored_for (isDark : bool) : list N :=
  if isDark then str "dark" else str "light".

(** A page in light mode with its button, and nothing stored. *)
Definition light_page : Theme :=
  load false (Some {| textContent := str "Dark Mode"; aria_pressed := str "false" |}) ∅.

(** * Properties *)

(** ** The embedding on small inputs *)

Example slice_examples :
  slice (-2) [1; 2; 3] = [2; 3] /\ slice (-5) [1; 2; 3] = [1; 2; 3]
  /\ slice 1 [1; 2; 3] = [2; 3] /\ slice 7 [1; 2; 3] = []
  /\ slice (- 0) [1; 2; 3] = [1; 2; 3].
Proof. repeat split. Qed.

Example key_name_examples :
  key_name (Index 0) = str "0" /\ decimal 404 = str "404".
Proof. split; reflexivity. Qed.

Example trim_example : trim (str "  dry  skin ") = str "dry  skin".
Proof. reflexivity. Qed.

(** Which pattern matches what: the white space before the name gives
    characters back to the captured set when the set would otherwise get
    fewer than two; \b keeps "im" inside a word from matching. *)
Example match_examples :
  (RegExp.String_match (str "I'm    b") <$> patterns !! 2%nat)
  = Some (Some (Some (str " b")))
  /\ (RegExp.String_match (str "I'M Zoe!") <$> patterns !! 2%nat)
     = Some (Some (Some (str "Zoe")))
  /\ (RegExp.String_match (str "him bob") <$> patterns !! 3%nat) = Some None
  /\ (RegExp.String_match (str "MY NAME IS x") <$> patterns !! 0%nat) = Some None
  /\ (RegExp.String_match (str "i am Li, hello") <$> patterns !! 1%nat)
     = Some (Some (Some (str "Li"))).
Proof. vm_compute. repeat split. Qed.

Example detect_examples :
  name (userContext (detectAndStoreName (str "Hello, my name is Zoe.") init))
  = Some (str "Zoe")
  /\ name (userContext (detectAndStoreName (str "what is a serum?") init)) = None.
Proof. vm_compute. split; reflexivity. Qed.

(** ** Arrays *)

Lemma index_head (a : list slot) (x : slot) :
  head a = Some x -> index a 0 = x.
Proof. destruct a as [|y a]; intros [=]; by subst. Qed.

Lemma head_push {A} (a : list A) (x y : A) :
  head a = Some x -> head (push y a) = Some x.
Proof. destruct a; intros [=]; by subst. Qed.

Lemma slice_last_n {A} (k : Z) (a : list A) :
  1 <= k -> Z.of_nat (length a) > k ->
  slice (- k) a = last_n (Z.to_nat k) a.
Proof.
  intros Hk Hlen. unfold slice, last_n.
  destruct (Z.ltb_spec (- k) 0); [|lia].
  f_equal. lia.
Qed.

Lemma length_last_n {A} (n : nat) (a : list A) :
  (n <= length a)%nat -> length (last_n n a) = n.
Proof. intros. unfold last_n. rewrite length_drop. lia. Qed.

(** ** What each step of the handler leaves alone *)

Lemma trimConversation_messages (m : option Z) (s : Session) :
  messages (trimConversation m s) =
    if Z.of_nat (length (messages s)) >? default 40 m
    then index (messages s) 0 :: slice (- default 40 m) (messages s)
    else messages s.
Proof.
  unfold trimConversation.
  destruct (Z.of_nat (length (messages s)) >? default 40 m);
    match goal with |- context [if ?b then _ else _] => destruct b end;
    reflexivity.
Qed.

Ltac split_ifs :=
  repeat match goal with |- context [if ?b then _ else _] => destruct b end.

Lemma trimConversation_fields (m : option Z) (s : Session) :
  isSending (trimConversation m s) = isSending s
  /\ name (userContext (trimConversation m s)) = name (userContext s)
  /\ page (trimConversation m s) = page s.
Proof. unfold trimConversation. split_ifs; done. Qed.

Lemma trimConversation_head (m : option Z) (s : Session) (x : slot) :
  head (messages s) = Some x -> head (messages (trimConversation m s)) = Some x.
Proof.
  intros H. rewrite trimConversation_messages.
  destruct (_ >? _); [|done]. simpl. by rewrite (index_head _ _ H).
Qed.

Lemma detectAndStoreName_set (message : jsstring) (s : Session) :
  name_is_set (userContext s) = true -> detectAndStoreName message s = s.
Proof. intros H. unfold detectAndStoreName. by rewrite H. Qed.

Lemma name_is_set_Some (c : UserContext) (n : jsstring) :
  n <> [] -> name c = Some n -> name_is_set c = true.
Proof.
  intros Hn Hc. unfold name_is_set, truthy_string. rewrite Hc.
  by rewrite bool_decide_eq_false_2.
Qed.

Lemma detectAndStoreName_fields (message : jsstring) (s : Session) :
  isSending (detectAndStoreName message s) = isSending s
  /\ messages (detectAndStoreName message s) = messages s
  /\ page (detectAndStoreName message s) = page s.
Proof. unfold detectAndStoreName. by destruct (name_is_set _). Qed.

Lemma showTypingBubble_fields (s : Session) :
  isSending (showTypingBubble s) = isSending s
  /\ messages (showTypingBubble s) = messages s
  /\ userContext (showTypingBubble s) = userContext s.
Proof. unfold showTypingBubble. by destruct (existsb _ _). Qed.

Lemma resume_userContext (c : completion value) (s : Session) :
  userContext (resume c s) = userContext s.
Proof. by destruct c. Qed.

(** The first part of the handler, past its two guards, sends a payload
    and leaves the flag set. *)
Lemma submit_sends (s : Session) :
  isSending s = false ->
  truthy_string (trim (userInput_value (page s))) = true ->
  exists s' payload, submit s = (s', Some payload) /\ isSending s' = true.
Proof.
  intros Hidle Htext. unfold submit. rewrite Hidle, Htext. simpl.
  eexists _, _. split; [reflexivity|].
  rewrite (proj1 (showTypingBubble_fields _)).
  rewrite (proj1 (trimConversation_fields _ _)).
  by rewrite (proj1 (detectAndStoreName_fields _ _)).
Qed.

(** Stopped by one of its guards, it does nothing. *)
Lemma submit_ignores (s : Session) :
  isSending s = true \/ truthy_string (trim (userInput_value (page s))) = false ->
  submit s = (s, None).
Proof.
  intros [H|H]; unfold submit; [by rewrite H|].
  rewrite H. by destruct (isSending s).
Qed.

Lemma submit_name (s : Session) (n : jsstring) :
  n <> [] -> name (userContext s) = Some n ->
  name (userContext (submit s).1) = Some n.
Proof.
  intros Hn Hs. unfold submit.
  destruct (isSending s); [done|].
  destruct (truthy_string _); [|done]. simpl.
  rewrite (proj2 (proj2 (showTypingBubble_fields _))).
  rewrite (proj1 (proj2 (trimConversation_fields _ _))).
  rewrite detectAndStoreName_set; [done|].
  by apply (name_is_set_Some _ n).
Qed.

Lemma submit_head (s : Session) (x : slot) :
  head (messages s) = Some x -> head (messages (submit s).1) = Some x.
Proof.
  intros Hs. unfold submit.
  destruct (isSending s); [done|].
  destruct (truthy_string _); [|done]. simpl.
  rewrite (proj1 (proj2 (showTypingBubble_fields _))).
  apply trimConversation_head.
  rewrite (proj1 (proj2 (detectAndStoreName_fields _ _))).
  by apply head_push.
Qed.

Lemma resume_head (c : completion value) (s : Session) (x : slot) :
  head (messages s) = Some x -> head (messages (resume c s)) = Some x.
Proof. intros Hs. destruct c; [by apply head_push|done]. Qed.

Lemma step_name (w : World) (e : event) (n : jsstring) :
  n <> [] -> name (userContext (session w)) = Some n ->
  name (userContext (session (step w e))) = Some n.
Proof.
  intros Hn Hw. destruct e as [text| |i net]; unfold step; [done| |].
  - pose proof (submit_name (session w) n Hn Hw) as H.
    by destruct (submit (session w)) as [s' [payload|]].
  - destruct (pending w !! i); [|done]. cbn [session].
    by rewrite resume_userContext.
Qed.

Lemma step_head (w : World) (e : event) (x : slot) :
  head (messages (session w)) = Some x ->
  head (messages (session (step w e))) = Some x.
Proof.
  intros Hw. destruct e as [text| |i net]; unfold step; [done| |].
  - pose proof (submit_head (session w) x Hw) as H.
    by destruct (submit (session w)) as [s' [payload|]].
  - destruct (pending w !! i); [|done]. cbn [session].
    by apply resume_head.
Qed.

Lemma step_guarded (w : World) (e : event) : guarded w -> guarded (step w e).
Proof.
  intros Hw. destruct e as [text| |i net]; unfold step.
  - exact Hw.
  - destruct Hw as [[Hbusy Hone]|[Hidle Hnone]].
    + rewrite submit_ignores by auto. by left.
    + destruct (truthy_string (trim (userInput_value (page (session w))))) eqn:Htext.
      * destruct (submit_sends _ Hidle Htext) as (s' & payload & -> & Hs').
        left. simpl. by rewrite Hnone.
      * rewrite submit_ignores by auto. by right.
  - destruct Hw as [[Hbusy Hone]|[Hidle Hnone]].
    + destruct (pending w) as [|p [|q l]] eqn:Hp; try done.
      destruct i as [|i]; simpl; [|left; by rewrite Hp].
      right. by destruct (getOpenAIReply net).
    + rewrite Hnone. simpl. right. by rewrite Hnone.
Qed.

Lemma run_guarded (es : list event) (w : World) : guarded w -> guarded (run w es).
Proof.
  revert w. induction es as [|e es IH]; intros w Hw; simpl; [done|].
  apply IH. by apply step_guarded.
Qed.

(** The call throws exactly for those reasons. *)
Lemma backend_failure_throws (net : Network) :
  backend_failure net <-> exists e, getOpenAIReply net = Thrown e.
Proof.
  split.
  - intros [|st|[st [data|]] Hok|st data Hc Hr]; try by eexists.
    + unfold getOpenAIReply. simpl. rewrite Hok. simpl. by eexists.
    + unfold getOpenAIReply, answers. simpl.
      fold (choice_content data). fold (reply_field data). rewrite Hc, Hr.
      destruct (ok _); by eexists.
  - intros [e He]. destruct net as [|[st [data|]]];
      [constructor|change (backend_failure (answers st data))|constructor].
    destruct (ok {| status := st; body := Some data |}) eqn:Hok;
      [|by apply bad_status].
    unfold getOpenAIReply in He. simpl in He. rewrite Hok in He. simpl in He.
    fold (choice_content data) in He. fold (reply_field data) in He.
    destruct (truthy (choice_content data)) eqn:Hc; [done|].
    destruct (truthy (reply_field data)) eqn:Hr; [done|].
    by apply unexpected_shape.
Qed.

(** ** The transcript *)

(** The same holds along the events of a session: the handler touches the
    transcript only by appending and trimming. *)
Lemma session_head_stays_system (es : list event) :
  head (messages (session (run start es))) = Some (Some base_system).
Proof.
  unfold run.
  generalize start
    (eq_refl : head (messages (session start)) = Some (Some base_system)).
  induction es as [|e es IH]; intros w Hw; simpl; [done|].
  apply IH. by apply step_head.
Qed.

(** C1. Whatever sequence of appends (of a user or an assistant message)
    and trims (with any maximum) is applied to the transcript the script
    starts with, the transcript stays non-empty and its first element stays
    the base system prompt, whose role is system. *)
Theorem transcript_head_stays_system (ops : list transcript_op) :
  messages (foldl apply_op init ops) <> []
  /\ head (messages (foldl apply_op init ops)) = Some (Some base_system)
  /\ msg_role base_system = system.
Proof.
  assert (H : head (messages (foldl apply_op init ops)) = Some (Some base_system)).
  { generalize init (eq_refl : head (messages init) = Some (Some base_system)).
    induction ops as [|o ops IH]; intros s Hs; simpl; [done|].
    apply IH. destruct o; simpl; auto using head_push, trimConversation_head. }
  split; [|done]. intros E. by rewrite E in H.
Qed.

(** C2, as the claim states it, fails: a transcript of 41 messages passes
    through the default trim with all its 41 messages. *)
Lemma default_trim_keeps_41 :
  length (messages (after_appends 40)) = 41%nat
  /\ length (messages (trimConversation None (after_appends 40))) = 41%nat
  /\ (40 < length (messages (trimConversation None (after_appends 40))))%nat.
Proof. vm_compute. repeat split; lia. Qed.

(** C2, amended. After trimConversation has run with the default maximum of
    40, the transcript has at most 41 messages: a transcript of more than
    40 messages is replaced by its first element followed by its last 40
    elements, and a shorter one is left as it is. *)
Theorem default_trim_bound (s : Session) :
  (length (messages (trimConversation None s)) <= 41)%nat
  /\ ((40 < length (messages s))%nat ->
      messages (trimConversation None s)
      = index (messages s) 0 :: last_n 40 (messages s))
  /\ ((length (messages s) <= 40)%nat ->
      messages (trimConversation None s) = messages s).
Proof.
  rewrite trimConversation_messages. simpl.
  destruct (Z.gtb_spec (Z.of_nat (length (messages s))) 40) as [Hgt|Hle].
  - rewrite (slice_last_n 40) by lia. simpl.
    rewrite length_last_n by (simpl; lia).
    split; [lia|]. split; [intros; reflexivity|lia].
  - split; [lia|]. split; [lia|intros; reflexivity].
Qed.







(** ** buildMessagesWithContext *)

Lemma join_separated (sep : jsstring) (parts : list jsstring) :
  join sep parts = separated sep parts.
Proof.
  destruct parts as [|p more]; [done|]. revert p.
  induction more as [|q more IH]; intros p.
  - simpl. by rewrite app_nil_r.
  - change (join sep (p :: q :: more)) with (p ++ sep ++ join sep (q :: more)).
    by rewrite IH.
Qed.

(** C5, as the claim states it, fails: the introduction "my name is    !"
    sets the name to the empty text, and the context text built from then
    on has no name sentence, where the claim's construction puts
    "User's name: ." for a name that is set. *)
Lemma empty_name_gets_no_sentence :
  name (userContext (session said_no_name)) = Some []
  /\ contextBlock (userContext (session said_no_name))
     = str "Conversation context: User previously asked about: my name is    !."
  /\ claimed_context_text (userContext (session said_no_name))
     = str "Conversation context: User's name: . User previously asked about: my name is    !."
  /\ contextBlock (userContext (session said_no_name))
     <> claimed_context_text (userContext (session said_no_name)).
Proof.
  split; [vm_compute; reflexivity|]. split; [vm_compute; reflexivity|].
  split; [vm_compute; reflexivity|]. vm_compute. discriminate.
Qed.

(** C5, amended. The context text that buildMessagesWithContext puts in
    the second message of the payload is, for every user context: the
    prefix "Conversation context: ", then "User's name: {name}." when the
    name is a text that is not empty, then "User previously asked about:
    {q1}; {q2}; ... ." when there are past questions, the two separated by
    a space when both are there, and "Conversation context: (none yet)"
    when neither is there. For the name Ana with the questions "red
    lipstick" and "dry scalp", for three questions, and for the empty
    context, it is the text written out below. *)
Theorem contextBlock_text :
  (forall c, contextBlock c = context_text c)
  /\ (forall s, buildMessagesWithContext s !! 1%nat
        = Some (Some {| msg_role := system;
                        content := VStr (contextBlock (userContext s)) |}))
  /\ contextBlock Ana
     = str "Conversation context: User's name: Ana. User previously asked about: red lipstick; dry scalp."
  /\ contextBlock {| name := None;
                     pastQuestions := [str "toner"; str "serum"; str "spf"] |}
     = str "Conversation context: User previously asked about: toner; serum; spf."
  /\ contextBlock {| name := None; pastQuestions := [] |}
     = str "Conversation context: (none yet)".
Proof.
  split; [|split; [|split; [|split]]]; try reflexivity.
  intros [nm qs]. unfold contextBlock, contextParts, context_text,
    questions_sentence. cbn [name pastQuestions].
  rewrite (join_separated (str "; ")).
  destruct nm as [[|ch n]|], qs as [|q qs]; reflexivity.
Qed.

(** ** detectAndStoreName *)

(** C6, as the claim states it, fails: from the initial session, where no
    name is set, the detector stores everything that follows "I'm ", since
    letters and spaces all belong to the captured set. *)
Lemma Renae_captures_whole_rest :
  name (userContext init) = None
  /\ name (userContext (detectAndStoreName Renae_says init))
     = Some (str "Renae and I have dry skin")
  /\ name (userContext (detectAndStoreName Renae_says init))
     <> Some (str "Renae").
Proof.
  split; [reflexivity|]. split; [vm_compute; reflexivity|].
  vm_compute. discriminate.
Qed.

(** C6, amended. With no name set, running the name detector on the input
    "Hi, I'm Renae and I have dry skin" sets the stored name to exactly
    "Renae and I have dry skin", and changes nothing else. *)
Theorem Renae_stored_name (s : Session)
    (Hunset : name_is_set (userContext s) = false) :
  detectAndStoreName Renae_says s
  = set_userContext
      {| name := Some (str "Renae and I have dry skin");
         pastQuestions := pastQuestions (userContext s) |} s.
Proof.
  unfold detectAndStoreName. rewrite Hunset.
  apply (f_equal (fun c => set_userContext c s)).
  generalize (userContext s). intros c. vm_compute. reflexivity.
Qed.

Lemma Renae_stored_name_witness :
  name_is_set (userContext init) = false
  /\ name (userContext (detectAndStoreName Renae_says init))
     = Some (str "Renae and I have dry skin").
Proof.
  split; [reflexivity|].
  rewrite (Renae_stored_name init); reflexivity.
Defined.

(** C7. Once a non-empty name is stored, the name detector leaves the
    session as it is, whatever the input, also over any number of calls;
    and no event of the session (typing, submitting, the backend
    answering) changes the stored name. *)
Theorem name_never_overwritten (s : Session) (n : jsstring)
    (Hn : n <> []) (Hname : name (userContext s) = Some n) :
  (forall message, detectAndStoreName message s = s)
  /\ (forall inputs, foldl (fun s' m => detectAndStoreName m s') s inputs = s)
  /\ (forall waiting es,
        name (userContext (session (run {| session := s; pending := waiting |} es)))
        = Some n).
Proof.
  assert (Hset : name_is_set (userContext s) = true)
    by by apply (name_is_set_Some _ n).
  split; [|split].
  - intros message. by apply detectAndStoreName_set.
  - induction inputs as [|m inputs IH]; simpl; [done|].
    by rewrite detectAndStoreName_set.
  - intros waiting es. unfold run.
    generalize {| session := s; pending := waiting |}
      (Hname : name (userContext (session {| session := s; pending := waiting |})) = Some n).
    induction es as [|e es IH]; intros w Hw; simpl; [done|].
    apply IH. by apply step_name.
Qed.

Lemma name_never_overwritten_witness :
  str "Ana" <> [] /\ name (userContext knows_Ana) = Some (str "Ana")
  /\ detectAndStoreName (str "my name is Bob") knows_Ana = knows_Ana.
Proof.
  assert (H : str "Ana" <> []) by discriminate.
  split; [exact H|]. split; [reflexivity|].
  apply (name_never_overwritten knows_Ana (str "Ana") H); reflexivity.
Defined.

(** ** The send lifecycle *)

(** C8. When the backend call fails, for whatever reason (no response, a
    body that is not JSON, a status outside 200-299, a body of neither
    shape), the call throws and the second part of the handler leaves
    isSending false, the transcript and the user context as they were when
    the call was made, and the input enabled; the only thing added is the
    fallback bubble in the chat window, in the place of the typing
    bubble. *)
Theorem failure_leaves_transcript (s : Session) (net : Network)
    (Hfails : backend_failure net) :
  (exists e, getOpenAIReply net = Thrown e)
  /\ isSending (resume (getOpenAIReply net) s) = false
  /\ messages (resume (getOpenAIReply net) s) = messages s
  /\ userContext (resume (getOpenAIReply net) s) = userContext s
  /\ userInput_disabled (page (resume (getOpenAIReply net) s)) = false
  /\ chatWindow (page (resume (getOpenAIReply net) s))
     = push (msg bubble_ai (VStr fallback))
         (remove_typingBubble (chatWindow (page s))).
Proof.
  destruct (proj1 (backend_failure_throws net) Hfails) as [e He].
  rewrite He. split; [by exists e|]. repeat split.
Qed.

Lemma failure_leaves_transcript_witness :
  backend_failure (answers 200 foo_bar)
  /\ getOpenAIReply (answers 200 foo_bar) = Thrown shape_error
  /\ isSending (session asked) = true
  /\ isSending (resume (getOpenAIReply (answers 200 foo_bar)) (session asked)) = false
  /\ messages (resume (getOpenAIReply (answers 200 foo_bar)) (session asked))
     = messages (session asked).
Proof.
  assert (H : backend_failure (answers 200 foo_bar))
    by (apply unexpected_shape; reflexivity).
  split; [exact H|]. split; [vm_compute; reflexivity|]. split; [reflexivity|].
  pose proof (failure_leaves_transcript (session asked) _ H) as P.
  split; [exact (proj1 (proj2 P))|exact (proj1 (proj2 (proj2 P)))].
Defined.

(** C9, as the claim states it, fails: a 2xx body that contains
    choices[0].message.content with the empty text makes the call fail
    with the shape error instead of returning that text; with a reply
    field besides, the reply is returned instead. *)
Lemma empty_content_not_returned :
  ok {| status := 200; body := Some empty_content |} = true
  /\ choice_content empty_content = VStr []
  /\ getOpenAIReply (answers 200 empty_content) = Thrown shape_error
  /\ choice_content empty_content_and_reply = VStr []
  /\ getOpenAIReply (answers 200 empty_content_and_reply)
     = Returned (VStr (str "Hello")).
Proof. vm_compute. repeat split. Qed.

(** C9, amended. For every response with a status in 200-299 and a JSON
    body: if choices[0].message.content is truthy (a text that is not
    empty, for one), the call returns exactly that value; otherwise, if
    the reply field is truthy, it returns that; otherwise it fails with the
    shape error. These are the only outcomes. The body
    {choices: [{message: {content: "Try Product X"}}]} yields
    "Try Product X". *)
Theorem getOpenAIReply_success (res : Response) (data : value)
    (Hok : ok res = true) (Hbody : body res = Some data) :
  (truthy (choice_content data) = true ->
   getOpenAIReply (Responds res) = Returned (choice_content data))
  /\ (truthy (choice_content data) = false ->
      truthy (reply_field data) = true ->
      getOpenAIReply (Responds res) = Returned (reply_field data))
  /\ (truthy (choice_content data) = false ->
      truthy (reply_field data) = false ->
      getOpenAIReply (Responds res) = Thrown shape_error)
  /\ getOpenAIReply (answers 200 (choices_body (str "Try Product X")))
     = Returned (VStr (str "Try Product X")).
Proof.
  assert (E : getOpenAIReply (Responds res)
              = if truthy (choice_content data) then Returned (choice_content data)
                else if truthy (reply_field data) then Returned (reply_field data)
                else Thrown shape_error).
  { unfold getOpenAIReply, fetch, json. simpl. rewrite Hbody. simpl.
    by rewrite Hok. }
  rewrite E. split; [|split; [|split]].
  - by intros ->.
  - by intros -> ->.
  - by intros -> ->.
  - vm_compute. reflexivity.
Qed.

Lemma getOpenAIReply_success_witness :
  ok {| status := 200; body := Some reply_body |} = true
  /\ truthy (choice_content reply_body) = false
  /\ getOpenAIReply (answers 200 reply_body) = Returned (VStr (str "Hello")).
Proof.
  split; [reflexivity|]. split; [reflexivity|].
  apply (getOpenAIReply_success
           {| status := 200; body := Some reply_body |} reply_body
           eq_refl eq_refl);
    reflexivity.
Defined.

(** C10. A submit event that arrives while isSending is true changes
    nothing: the handler returns the session as it is and sends no
    request, so the whole state, waiting calls included, stays the same.
    Hence, whatever the events of a session, at most one call of the
    backend is waiting at any time. *)
Theorem submit_while_sending_is_noop (w : World)
    (Hbusy : isSending (session w) = true) :
  submit (session w) = (session w, None)
  /\ step w Submit = w
  /\ (forall es, (length (pending (run start es)) <= 1)%nat).
Proof.
  assert (E : submit (session w) = (session w, None))
    by (apply submit_ignores; auto).
  split; [exact E|]. split.
  - unfold step. rewrite E. by destruct w.
  - intros es. destruct (run_guarded es start) as [[_ H]|[_ H]];
      [by right| |]; rewrite H; simpl; lia.
Qed.

Lemma submit_while_sending_is_noop_witness :
  isSending (session asked) = true
  /\ length (pending asked) = 1%nat
  /\ step asked Submit = asked.
Proof.
  split; [reflexivity|]. split; [reflexivity|].
  apply (submit_while_sending_is_noop asked). reflexivity.
Defined.

(** * Further properties *)

(** ** Strings and arrays *)

Lemma trimStart_white (s : jsstring) :
  Forall (fun ch => is_white_space ch = true) s -> trimStart s = [].
Proof. induction 1 as [|ch s Hch _ IH]; simpl; [done|]. by rewrite Hch. Qed.

Lemma trimStart_split (s : jsstring) :
  exists pre, s = pre ++ trimStart s.
Proof.
  induction s as [|ch s [pre IH]]; simpl; [by exists []|].
  destruct (is_white_space ch); [|by exists []].
  exists (ch :: pre). simpl. by f_equal.
Qed.

Lemma trimStart_head (s : jsstring) (ch : N) :
  head (trimStart s) = Some ch -> is_white_space ch = false.
Proof.
  induction s as [|c s IH]; simpl; [done|].
  destruct (is_white_space c) eqn:Hc; [done|]. simpl. by intros [= <-].
Qed.

Lemma trimStart_clean (s : jsstring) :
  (forall ch, head s = Some ch -> is_white_space ch = false) -> trimStart s = s.
Proof. destruct s as [|c s]; simpl; [done|]. intros H. by rewrite (H c). Qed.

Lemma trim_white (s : jsstring) :
  Forall (fun ch => is_white_space ch = true) s -> trim s = [].
Proof. intros H. unfold trim. by rewrite (trimStart_white s H). Qed.

(** What trim returns is a middle part of the string. *)
Lemma trim_split (s : jsstring) :
  exists pre post, s = pre ++ trim s ++ post.
Proof.
  unfold trim. destruct (trimStart_split s) as [pre Hpre].
  destruct (trimStart_split (reverse (trimStart s))) as [post Hpost].
  exists pre, (reverse post).
  rewrite <- reverse_app, <- Hpost, reverse_involutive. exact Hpre.
Qed.

Lemma trim_clean_ends (s : jsstring) : clean_ends (trim s).
Proof.
  unfold trim. set (t := trimStart s). set (u := trimStart (reverse t)).
  split; intros ch.
  - rewrite head_reverse. intros Hlast.
    destruct (trimStart_split (reverse t)) as [post Hpost]. fold u in Hpost.
    assert (Hu : last (reverse t) = Some ch).
    { rewrite Hpost. destruct u as [|c u'] using rev_ind; [done|].
      rewrite last_snoc in Hlast. rewrite app_assoc, last_snoc. done. }
    rewrite last_reverse in Hu. by apply (trimStart_head s).
  - rewrite last_reverse. apply trimStart_head.
Qed.

Lemma trim_id (s : jsstring) : clean_ends s -> trim s = s.
Proof.
  intros [Hhead Hlast]. unfold trim. rewrite (trimStart_clean s Hhead).
  rewrite trimStart_clean; [apply reverse_involutive|].
  intros ch. rewrite head_reverse. apply Hlast.
Qed.

Lemma trimStart_nil (s : jsstring) :
  trimStart s = [] -> Forall (fun ch => is_white_space ch = true) s.
Proof.
  induction s as [|ch s IH]; simpl; [by constructor|].
  destruct (is_white_space ch) eqn:Hch; [|done]. intros H. constructor; auto.
Qed.

Lemma trim_nil (s : jsstring) :
  trim s = [] <-> Forall (fun ch => is_white_space ch = true) s.
Proof.
  split; [|apply trim_white]. unfold trim. intros H.
  apply (f_equal reverse) in H. rewrite reverse_involutive in H. simpl in H.
  apply trimStart_nil in H. apply Forall_reverse in H.
  rewrite reverse_involutive in H.
  apply trimStart_nil. destruct (trimStart s) as [|ch t] eqn:Ht; [done|].
  pose proof (trimStart_head s ch) as Hhead. rewrite Ht in Hhead.
  apply Forall_cons in H as [Hch _]. rewrite Hhead in Hch; done.
Qed.

Lemma slice_neg {A} (k : Z) (a : list A) :
  1 <= k -> slice (- k) a = drop (length a - Z.to_nat k) a.
Proof.
  intros Hk. unfold slice. destruct (Z.ltb_spec (- k) 0); [|lia].
  f_equal. lia.
Qed.

Lemma last_drop_lt {A} (j : nat) (a : list A) :
  (j < length a)%nat -> last (drop j a) = last a.
Proof.
  intros Hj. rewrite !last_lookup, lookup_drop, length_drop. f_equal. lia.
Qed.

Lemma last_slice_neg {A} (k : Z) (a : list A) :
  1 <= k -> last (slice (- k) a) = last a.
Proof.
  intros Hk. rewrite slice_neg by done. destruct a as [|x a]; [done|].
  apply last_drop_lt. simpl. lia.
Qed.

Lemma slice_neg_nil {A} (k : Z) (a : list A) :
  1 <= k -> slice (- k) a = [] -> a = [].
Proof.
  intros Hk H. apply (f_equal last) in H. rewrite last_slice_neg in H by done.
  by apply last_None.
Qed.

(** ** The steps of the handler, field by field *)

Lemma detect_loop_pastQuestions (res : list RegExp.RegExp) (message : jsstring)
    (c : UserContext) :
  pastQuestions (detect_loop res message c) = pastQuestions c.
Proof.
  induction res as [|re res IH]; simpl; [done|].
  destruct (RegExp.String_match message re) as [[m1|]|]; try done.
  by destruct (truthy_string m1).
Qed.

Lemma detectAndStoreName_pastQuestions (message : jsstring) (s : Session) :
  pastQuestions (userContext (detectAndStoreName message s))
  = pastQuestions (userContext s).
Proof.
  unfold detectAndStoreName. destruct (name_is_set _); [done|].
  apply detect_loop_pastQuestions.
Qed.

Lemma trimConversation_pastQuestions (m : option Z) (s : Session) :
  pastQuestions (userContext (trimConversation m s))
  = if Z.of_nat (length (pastQuestions (userContext s))) >? 20
    then slice (-10) (pastQuestions (userContext s))
    else pastQuestions (userContext s).
Proof.
  unfold trimConversation.
  destruct (Z.of_nat (length (messages s)) >? default 40 m); simpl;
    by destruct (_ >? 20).
Qed.

Lemma truthy_string_true (t : jsstring) : t <> [] -> truthy_string t = true.
Proof. intros H. unfold truthy_string. by rewrite bool_decide_eq_false_2. Qed.

(** The first part of the handler when it gets past its guards, as the
    composition of its steps. *)
Lemma submit_accepted (s : Session) :
  isSending s = false -> trim (userInput_value (page s)) <> [] ->
  exists s', submit s = (s', Some (buildMessagesWithContext s'))
    /\ s' = showTypingBubble
              (trimConversation None
                 (detectAndStoreName (trim (userInput_value (page s)))
                    (push_pastQuestion (trim (userInput_value (page s)))
                       (push_message user (VStr (trim (userInput_value (page s))))
                          (appendMessage bubble_user
                             (VStr (trim (userInput_value (page s))))
                             (set_isSending true
                                (set_page (lock_input (page s)) s))))))).
Proof.
  intros Hidle Htext. unfold submit.
  rewrite Hidle, (truthy_string_true _ Htext). simpl. by eexists.
Qed.

Lemma submit_accepted_messages (s : Session) :
  isSending s = false -> trim (userInput_value (page s)) <> [] ->
  messages (submit s).1
  = messages (trimConversation None
      (push_message user (VStr (trim (userInput_value (page s)))) s)).
Proof.
  intros Hidle Htext.
  destruct (submit_accepted s Hidle Htext) as (s' & -> & ->). simpl.
  rewrite (proj1 (proj2 (showTypingBubble_fields _))).
  rewrite !trimConversation_messages.
  by rewrite (proj1 (proj2 (detectAndStoreName_fields _ _))).
Qed.

Lemma submit_accepted_pastQuestions (s : Session) :
  isSending s = false -> trim (userInput_value (page s)) <> [] ->
  pastQuestions (userContext (submit s).1)
  = pastQuestions (userContext (trimConversation None
      (push_pastQuestion (trim (userInput_value (page s))) s))).
Proof.
  intros Hidle Htext.
  destruct (submit_accepted s Hidle Htext) as (s' & -> & ->). simpl.
  rewrite (proj2 (proj2 (showTypingBubble_fields _))).
  rewrite !trimConversation_pastQuestions.
  by rewrite detectAndStoreName_pastQuestions.
Qed.

Lemma showTypingBubble_page (s : Session) :
  page (showTypingBubble s)
  = if existsb is_typingBubble (chatWindow (page s)) then page s
    else set_chatWindow (push typingBubble (chatWindow (page s))) (page s).
Proof. unfold showTypingBubble. by destruct (existsb _ _). Qed.

Lemma submit_accepted_page (s : Session) :
  isSending s = false -> trim (userInput_value (page s)) <> [] ->
  page (submit s).1
  = page (showTypingBubble
      (appendMessage bubble_user (VStr (trim (userInput_value (page s))))
         (set_page (lock_input (page s)) s))).
Proof.
  intros Hidle Htext.
  destruct (submit_accepted s Hidle Htext) as (s' & -> & ->). simpl.
  rewrite !showTypingBubble_page.
  rewrite !(proj2 (proj2 (trimConversation_fields _ _))).
  by rewrite !(proj2 (proj2 (detectAndStoreName_fields _ _))).
Qed.

(** ** The typing bubble *)

Lemma typing_bubbles_app (w1 w2 : list element) :
  typing_bubbles (w1 ++ w2) = (typing_bubbles w1 + typing_bubbles w2)%nat.
Proof. unfold typing_bubbles. by rewrite filter_app, length_app. Qed.

Lemma typing_bubbles_cons (e : element) (w : list element) :
  typing_bubbles (e :: w)
  = ((if is_typingBubble e then 1 else 0) + typing_bubbles w)%nat.
Proof.
  unfold typing_bubbles. by destruct e.
Qed.

Lemma existsb_typingBubble (w : list element) :
  existsb is_typingBubble w = negb (typing_bubbles w =? 0)%nat.
Proof.
  induction w as [|e w IH]; [done|].
  rewrite typing_bubbles_cons. simpl. rewrite IH. by destruct e.
Qed.

Lemma typing_bubbles_remove (w : list element) :
  typing_bubbles (remove_typingBubble w) = pred (typing_bubbles w).
Proof.
  induction w as [|e w IH]; [done|]. rewrite typing_bubbles_cons.
  destruct e; cbn [remove_typingBubble is_typingBubble]; [|done].
  rewrite typing_bubbles_cons. exact IH.
Qed.

Lemma remove_typingBubble_none (w : list element) :
  typing_bubbles w = 0%nat -> remove_typingBubble w = w.
Proof.
  induction w as [|e w IH]; [done|]. rewrite typing_bubbles_cons. simpl.
  destruct e; simpl; [|done]. intros H. by rewrite IH.
Qed.

Lemma remove_typingBubble_first (w1 w2 : list element) :
  typing_bubbles w1 = 0%nat ->
  remove_typingBubble (w1 ++ typingBubble :: w2) = w1 ++ w2.
Proof.
  induction w1 as [|e w1 IH]; [done|]. rewrite typing_bubbles_cons. simpl.
  destruct e; simpl; [|done]. intros H. by rewrite IH.
Qed.

(** ** Along the events of a session *)

Lemma run_invariant (P : World -> Prop) :
  (forall w e, P w -> P (step w e)) ->
  forall es w, P w -> P (run w es).
Proof.
  intros Hstep es. induction es as [|e es IH]; intros w Hw; simpl; [done|].
  apply IH. by apply Hstep.
Qed.

(** A submit either leaves the session as it is, or is accepted. *)
Lemma submit_cases (s : Session) :
  submit s = (s, None)
  \/ (isSending s = false /\ trim (userInput_value (page s)) <> []
      /\ exists s', submit s = (s', Some (buildMessagesWithContext s'))).
Proof.
  destruct (isSending s) eqn:Hbusy; [left; apply submit_ignores; auto|].
  destruct (decide (trim (userInput_value (page s)) = [])) as [E|Htext].
  - left. apply submit_ignores. right. unfold truthy_string.
    by rewrite bool_decide_eq_true_2.
  - right. split; [done|]. split; [done|].
    destruct (submit_accepted s Hbusy Htext) as (s' & Hs' & _). by exists s'.
Qed.

Lemma trim_default_length (s : Session) :
  (length (messages (trimConversation None s)) <= 41)%nat.
Proof.
  rewrite trimConversation_messages. simpl.
  destruct (Z.gtb_spec (Z.of_nat (length (messages s))) 40); [|lia].
  rewrite (slice_neg 40) by lia. simpl. rewrite length_drop. lia.
Qed.

Lemma trim_pastQuestions_length (m : option Z) (s : Session) :
  (length (pastQuestions (userContext (trimConversation m s))) <= 20)%nat.
Proof.
  rewrite trimConversation_pastQuestions.
  destruct (Z.gtb_spec (Z.of_nat (length (pastQuestions (userContext s)))) 20);
    [|lia].
  rewrite (slice_neg 10) by lia. rewrite length_drop. lia.
Qed.

Lemma resume_messages (c : completion value) (s : Session) :
  messages (resume c s)
  = match c with
    | Returned reply =>
        push (Some {| msg_role := assistant; content := reply |}) (messages s)
    | Thrown _ => messages s
    end.
Proof. by destruct c. Qed.

Lemma resume_isSending (c : completion value) (s : Session) :
  isSending (resume c s) = false.
Proof. by destruct c. Qed.

Lemma length_buildMessagesWithContext (s : Session) :
  length (buildMessagesWithContext s) = (2 + (length (messages s) - 1))%nat.
Proof.
  unfold buildMessagesWithContext, slice. simpl. rewrite length_drop.
  destruct (messages s); simpl; lia.
Qed.

(** The page after an accepted submit, when no typing bubble was shown. *)
Lemma accepted_page (s : Session) (v : value) :
  typing_bubbles (chatWindow (page s)) = 0%nat ->
  page (showTypingBubble
          (appendMessage bubble_user v (set_page (lock_input (page s)) s)))
  = {| userInput_value := []; userInput_disabled := true;
       sendBtn_disabled := true;
       chatWindow := chatWindow (page s) ++ [msg bubble_user v; typingBubble] |}.
Proof.
  intros Hnone. rewrite showTypingBubble_page.
  unfold appendMessage, set_page, lock_input, set_chatWindow, push. simpl.
  rewrite existsb_typingBubble, typing_bubbles_app, Hnone. simpl.
  by rewrite <- app_assoc.
Qed.

Lemma step_controls (w : World) (e : event) :
  controls_follow_flag (session w) -> controls_follow_flag (session (step w e)).
Proof.
  intros (Hbubble & Hinput & Hsend). destruct e as [text| |i net]; unfold step.
  - done.
  - destruct (submit_cases (session w)) as [E|(Hidle & Htext & s' & E)];
      rewrite E; [done|].
    pose proof (submit_accepted_page (session w) Hidle Htext) as Hpage.
    destruct (submit_sends (session w) Hidle (truthy_string_true _ Htext))
      as (s'' & payload & E' & Hbusy).
    rewrite E in E', Hpage. injection E' as <- _. simpl in Hpage.
    rewrite Hidle in Hbubble. rewrite (accepted_page _ _ Hbubble) in Hpage.
    cbn [session]. unfold controls_follow_flag. rewrite Hbusy, Hpage. simpl.
    rewrite typing_bubbles_app, Hbubble. done.
  - destruct (pending w !! i); [|done]. cbn [session].
    unfold controls_follow_flag. rewrite resume_isSending.
    destruct (getOpenAIReply net); simpl; unfold push;
      rewrite typing_bubbles_app, typing_bubbles_remove, Hbubble;
      by destruct (isSending (session w)).
Qed.

Lemma step_bounded (w : World) (e : event) :
  transcript_bounded w -> transcript_bounded (step w e).
Proof.
  intros (Hg & Hlen & Hbusy & Hpay).
  split; [by apply step_guarded|].
  destruct e as [text| |i net]; unfold step.
  - done.
  - destruct (submit_cases (session w)) as [E|(Hidle & Htext & s' & E)];
      rewrite E; [done|].
    pose proof (submit_accepted_messages (session w) Hidle Htext) as Hm.
    rewrite E in Hm. simpl in Hm. cbn [session pending].
    assert (Hs' : (length (messages s') <= 41)%nat)
      by (rewrite Hm; apply trim_default_length).
    split; [lia|]. split; [done|].
    apply Forall_app. split; [done|]. constructor; [|done].
    rewrite length_buildMessagesWithContext. lia.
  - destruct (pending w !! i) eqn:Hi; [|done]. cbn [session pending].
    rewrite resume_isSending, resume_messages.
    assert (Hw : (length (messages (session w)) <= 41)%nat).
    { destruct Hg as [[Hb _]|[_ Hnone]]; [auto|]. by rewrite Hnone in Hi. }
    split; [|split; [done|]].
    + destruct (getOpenAIReply net); [|lia].
      unfold push. rewrite length_app. simpl. lia.
    + apply Forall_delete. done.
Qed.

Lemma step_pastQuestions (w : World) (e : event) :
  (length (pastQuestions (userContext (session w))) <= 20)%nat ->
  (length (pastQuestions (userContext (session (step w e)))) <= 20)%nat.
Proof.
  intros Hw. destruct e as [text| |i net]; unfold step.
  - done.
  - destruct (submit_cases (session w)) as [E|(Hidle & Htext & s' & E)];
      rewrite E; [done|].
    pose proof (submit_accepted_pastQuestions (session w) Hidle Htext) as Hq.
    rewrite E in Hq. simpl in Hq. cbn [session]. rewrite Hq.
    apply trim_pastQuestions_length.
  - destruct (pending w !! i); [|done]. cbn [session].
    by rewrite resume_userContext.
Qed.

(** ** What getOpenAIReply returns *)

Lemma returned_truthy (net : Network) (v : value) :
  getOpenAIReply net = Returned v -> truthy v = true.
Proof.
  destruct net as [|[st [data|]]]; try done.
  unfold getOpenAIReply. simpl.
  destruct (ok {| status := st; body := Some data |}); [|done]. simpl.
  fold (choice_content data). fold (reply_field data).
  destruct (truthy (choice_content data)) eqn:Hc; [by intros [= <-]|].
  destruct (truthy (reply_field data)) eqn:Hr; [by intros [= <-]|done].
Qed.

(** ** No hole, no empty message *)

Lemma contextBlock_not_empty (c : UserContext) : contextBlock c <> [].
Proof. unfold contextBlock. by destruct (negb _). Qed.

Lemma filled_trimmed (m : option Z) (s : Session) :
  messages s <> [] -> Forall filled (messages s) ->
  messages (trimConversation m s) <> []
  /\ Forall filled (messages (trimConversation m s)).
Proof.
  intros Hne Hall. rewrite trimConversation_messages.
  destruct (_ >? _); [|done]. split; [done|].
  constructor.
  - destruct (messages s) as [|x l]; [done|]. by apply Forall_cons in Hall as [? _].
  - unfold slice. by apply Forall_drop.
Qed.

Lemma filled_payload (s : Session) :
  messages s <> [] -> Forall filled (messages s) ->
  Forall filled (buildMessagesWithContext s).
Proof.
  intros Hne Hall. unfold buildMessagesWithContext.
  constructor; [|constructor].
  - destruct (messages s) as [|x l]; [done|]. by apply Forall_cons in Hall as [? _].
  - eexists _, _. split; [done|]. simpl.
    by rewrite bool_decide_eq_false_2 by apply contextBlock_not_empty.
  - unfold slice. by apply Forall_drop.
Qed.

Lemma step_filled (w : World) (e : event) : all_filled w -> all_filled (step w e).
Proof.
  intros (Hne & Hall & Hpay). destruct e as [text| |i net]; unfold step.
  - done.
  - destruct (submit_cases (session w)) as [E|(Hidle & Htext & s' & E)];
      rewrite E; [done|].
    pose proof (submit_accepted_messages (session w) Hidle Htext) as Hm.
    rewrite E in Hm. simpl in Hm.
    destruct (filled_trimmed None
                (push_message user (VStr (trim (userInput_value (page (session w)))))
                   (session w))) as [Hne' Hall'].
    { simpl. unfold push. by destruct (messages (session w)). }
    { simpl. apply Forall_app. split; [done|]. constructor; [|done].
      eexists _, _. split; [done|]. simpl. by rewrite bool_decide_eq_false_2. }
    rewrite <- Hm in Hne', Hall'. unfold all_filled. cbn [session pending].
    split; [done|]. split; [done|].
    apply Forall_app. split; [done|]. constructor; [|done].
    by apply filled_payload.
  - destruct (pending w !! i); [|done]. unfold all_filled. cbn [session pending].
    rewrite resume_messages. split; [|split].
    + destruct (getOpenAIReply net); [|done]. unfold push.
      by destruct (messages (session w)).
    + destruct (getOpenAIReply net) as [reply|] eqn:Hr; [|done].
      apply Forall_app. split; [done|]. constructor; [|done].
      eexists _, _. split; [done|]. by apply (returned_truthy net).
    + by apply Forall_delete.
Qed.

(** ** The matcher *)

(** A greedy repetition that succeeds has taken some [m >= min] characters
    of the set and handed the rest to its continuation. *)
Lemma repeat_set_sound (ic : bool) (cs : list RegExp.class_item)
    (k : RegExp.Continuation) (y : RegExp.MatchState) (cap : option jsstring)
    (input : jsstring) :
  forall (min : nat) (prev : option N),
    RegExp.repeat_set ic cs min prev input cap k = Some y ->
    exists (m : nat) (prev' : option N),
      (min <= m <= length input)%nat
      /\ Forall (fun ch => RegExp.set_matches ic cs ch = true) (take m input)
      /\ k {| RegExp.before := prev'; RegExp.rest := drop m input;
              RegExp.capture1 := cap |} = Some y.
Proof.
  induction input as [|ch input IH]; intros min prev; simpl.
  - destruct min; [|done]. intros H. exists 0%nat, prev.
    split; [simpl; lia|]. split; [constructor|done].
  - assert (Hstop : match min with
                    | O => k {| RegExp.before := prev; RegExp.rest := ch :: input;
                                RegExp.capture1 := cap |}
                    | S _ => None
                    end = Some y ->
            exists (m : nat) (prev' : option N),
              (min <= m <= length (ch :: input))%nat
              /\ Forall (fun c => RegExp.set_matches ic cs c = true)
                    (take m (ch :: input))
              /\ k {| RegExp.before := prev'; RegExp.rest := drop m (ch :: input);
                      RegExp.capture1 := cap |} = Some y).
    { destruct min; [|done]. intros H. exists 0%nat, prev.
      split; [simpl; lia|]. split; [constructor|done]. }
    destruct (RegExp.set_matches ic cs ch) eqn:Hch; [|exact Hstop].
    destruct (RegExp.repeat_set ic cs (pred min) (Some ch) input cap k) as [y'|]
      eqn:Hrec; [|exact Hstop].
    intros [= <-]. apply IH in Hrec as (m & prev' & Hm & Hall & Hk).
    exists (S m), prev'. split; [simpl; lia|]. split; [|done].
    simpl. by constructor.
Qed.

(** Whatever a matcher returns, its continuation returned. *)
Lemma matcher_result (r : RegExp.regex) (ic : bool) (y : RegExp.MatchState) :
  forall (x : RegExp.MatchState) (k : RegExp.Continuation),
    RegExp.matcher r ic x k = Some y -> exists x', k x' = Some y.
Proof.
  induction r as [|cs| |min cs|r1 IH1 r2 IH2|r1 IH1]; intros x k; simpl.
  - by exists x.
  - destruct (RegExp.rest x) as [|ch input]; [done|].
    destruct (RegExp.set_matches ic cs ch); [|done]. by eexists.
  - destruct (xorb _ _); [|done]. by exists x.
  - intros H. apply repeat_set_sound in H as (m & prev' & _ & _ & H). by eexists.
  - intros H. apply IH1 in H as [x1 H]. by apply IH2 in H.
  - intros H. apply IH1 in H as [x1 H]. by eexists.
Qed.

Lemma matcher_cat_app (pre tl : list RegExp.regex) (ic : bool)
    (k : RegExp.Continuation) (y : RegExp.MatchState) :
  forall x, RegExp.matcher (RegExp.cat (pre ++ tl)) ic x k = Some y ->
            exists x', RegExp.matcher (RegExp.cat tl) ic x' k = Some y.
Proof.
  induction pre as [|a pre IH]; intros x; [by exists x|]. simpl.
  intros H. apply matcher_result in H as [x1 H]. by apply IH in H.
Qed.

Lemma search_result (re : RegExp.RegExp) (y : RegExp.MatchState)
    (input : jsstring) :
  forall prev, RegExp.search re prev input = Some y ->
    exists x, RegExp.matcher (RegExp.source re) (RegExp.ignoreCase re) x Some
              = Some y.
Proof.
  induction input as [|ch input IH]; intros prev; simpl.
  - destruct (RegExp.matcher _ _ _ _) eqn:H; [|done]. intros [= <-]. by eexists.
  - destruct (RegExp.matcher _ _ _ _) eqn:H; [intros [= <-]; by eexists|].
    apply IH.
Qed.

(** What the tail of the four patterns leaves in group 1: at least two
    characters, all of the set. *)
Lemma name_tail_capture (x y : RegExp.MatchState) :
  RegExp.matcher (RegExp.cat name_tail) true x Some = Some y ->
  exists g, RegExp.capture1 y = Some g
    /\ (2 <= length g)%nat /\ Forall (fun ch => name_char ch = true) g.
Proof.
  simpl. intros H.
  apply repeat_set_sound in H as (m1 & prev1 & _ & _ & H).
  apply repeat_set_sound in H as (m & prev & Hm & Hall & H).
  simpl in H, Hm, Hall. injection H as <-. simpl.
  set (input := drop m1 (RegExp.rest x)) in *.
  replace (length input - length (drop m input))%nat with m
    by (rewrite length_drop; lia).
  eexists. split; [done|]. split; [|done]. rewrite length_take. lia.
Qed.

Lemma patterns_shape (re : RegExp.RegExp) :
  re ∈ patterns ->
  RegExp.ignoreCase re = true
  /\ exists pre, RegExp.source re = RegExp.cat (pre ++ name_tail).
Proof.
  unfold patterns. rewrite !elem_of_cons, elem_of_nil.
  intros [->|[->|[->|[->|[]]]]]; (split; [done|]).
  - by exists [RegExp.lit "my name is"].
  - by exists [RegExp.WordBoundary; RegExp.lit "i am"].
  - by exists [RegExp.WordBoundary; RegExp.lit "i'm"].
  - by exists [RegExp.WordBoundary; RegExp.lit "im"].
Qed.

Lemma String_match_capture (message : jsstring) (re : RegExp.RegExp)
    (g : jsstring) :
  re ∈ patterns -> RegExp.String_match message re = Some (Some g) ->
  (2 <= length g)%nat /\ Forall (fun ch => name_char ch = true) g.
Proof.
  intros Hre. destruct (patterns_shape re Hre) as (Hic & pre & Hsrc).
  unfold RegExp.String_match.
  destruct (RegExp.search re None message) as [y|] eqn:Hy; [|done].
  simpl. intros [= Hg]. apply search_result in Hy as [x Hy].
  rewrite Hsrc, Hic in Hy. apply matcher_cat_app in Hy as [x' Hy].
  apply name_tail_capture in Hy as (g' & Hg' & Hlen & Hall).
  rewrite Hg in Hg'. by injection Hg' as <-.
Qed.

Lemma detect_loop_cases (res : list RegExp.RegExp) (message : jsstring)
    (c : UserContext) :
  detect_loop res message c = c
  \/ exists re g, re ∈ res
       /\ RegExp.String_match message re = Some (Some g)
       /\ detect_loop res message c
          = {| name := Some (trim g); pastQuestions := pastQuestions c |}.
Proof.
  induction res as [|re res IH]; simpl; [by left|].
  assert (Hmore : detect_loop res message c = c
    \/ exists re' g, re' ∈ re :: res
         /\ RegExp.String_match message re' = Some (Some g)
         /\ detect_loop res message c
            = {| name := Some (trim g); pastQuestions := pastQuestions c |}).
  { destruct IH as [IH|(re' & g & Hin & Hm & IH)]; [by left|right].
    exists re', g. split; [by right|done]. }
  destruct (RegExp.String_match message re) as [[m1|]|] eqn:Hm; try done.
  destruct (truthy_string m1); [|done].
  right. exists re, m1. split; [by left|done].
Qed.

(** ** The character sets under the flag i *)

Lemma Canonicalize_above (ch : N) :
  (256 <= ch)%N -> RegExp.Canonicalize true ch = ch.
Proof.
  intros Hch. unfold RegExp.Canonicalize, RegExp.toUpperCase. simpl.
  repeat match goal with
         | |- context [(?a <=? ?b)%N] => destruct (N.leb_spec a b); try lia
         | |- context [(?a =? ?b)%N] => destruct (N.eqb_spec a b); try lia
         end; simpl; try done.
  by destruct (ch <? 128)%N.
Qed.

Lemma existsb_eqb_fmap (f : N -> N) (l : list N) (ch : N) :
  existsb (fun a => (f a =? ch)%N) l = bool_decide (ch ∈ f <$> l).
Proof.
  destruct (existsb _ l) eqn:E; symmetry.
  - apply bool_decide_eq_true_2. apply existsb_exists in E as (a & Hin & Ha).
    apply list_elem_of_fmap. exists a. split; [by apply N.eqb_eq in Ha|].
    by apply list_elem_of_In.
  - apply bool_decide_eq_false_2. intros Hin.
    apply list_elem_of_fmap in Hin as (a & -> & Ha).
    assert (existsb (fun a0 => (f a0 =? f a)%N) l = true); [|congruence].
    apply existsb_exists. exists a. split; [by apply list_elem_of_In|].
    apply N.eqb_refl.
Qed.

Lemma set_matches_above (cs : list RegExp.class_item) (ch : N) :
  (256 <= ch)%N ->
  RegExp.set_matches true cs ch
  = bool_decide (ch ∈ RegExp.Canonicalize true <$> (cs ≫= RegExp.members)).
Proof.
  intros Hch. unfold RegExp.set_matches. rewrite (Canonicalize_above ch Hch).
  apply existsb_eqb_fmap.
Qed.

(** Two tests that agree on the 256 code units of Latin-1. *)
Lemma agree_below_256 (f g : N -> bool) :
  forallb (fun n => Bool.eqb (f (N.of_nat n)) (g (N.of_nat n))) (seq 0 256) = true ->
  forall ch, (ch < 256)%N -> f ch = g ch.
Proof.
  intros H ch Hch. rewrite forallb_forall in H.
  specialize (H (N.to_nat ch)). rewrite N2Nat.id in H.
  apply Bool.eqb_prop, H, in_seq. lia.
Qed.

Lemma white_space_matches (ch : N) :
  RegExp.set_matches true [RegExp.WhiteSpace] ch = is_white_space ch.
Proof.
  destruct (N.lt_ge_cases ch 256) as [Hlow|Hhigh].
  - revert ch Hlow. apply agree_below_256. vm_compute. reflexivity.
  - by rewrite set_matches_above.
Qed.

(** ** When the matcher succeeds *)

Lemma before_after_cons (prev : option N) (ch : N) (taken : jsstring) :
  before_after prev (ch :: taken) = before_after (Some ch) taken.
Proof.
  unfold before_after. destruct taken as [|c t]; [done|].
  rewrite last_cons_cons. destruct (last (c :: t)) eqn:E; [done|].
  by apply last_None in E.
Qed.

Lemma matcher_literal (pattern text : jsstring) (k : RegExp.Continuation)
    (rest' : jsstring) (cap : option jsstring) :
  same_ignoring_case pattern text ->
  forall prev,
    RegExp.matcher
      (foldr (fun c r => RegExp.Seq (RegExp.Set_ [RegExp.One c]) r)
         RegExp.Empty pattern)
      true
      {| RegExp.before := prev; RegExp.rest := text ++ rest';
         RegExp.capture1 := cap |} k
    = k {| RegExp.before := before_after prev text; RegExp.rest := rest';
           RegExp.capture1 := cap |}.
Proof.
  induction 1 as [|a ch pattern text Hch _ IH]; intros prev; [done|].
  rewrite before_after_cons, <- IH. simpl.
  unfold RegExp.set_matches. simpl. by rewrite Hch, N.eqb_refl.
Qed.

(** A greedy repetition takes a whole run of characters of its set when
    what follows the run is not of the set and the rest of the pattern
    matches from there. *)
Lemma repeat_set_greedy (ic : bool) (cs : list RegExp.class_item)
    (k : RegExp.Continuation) (y : RegExp.MatchState) (cap : option jsstring)
    (rest' : jsstring) (taken : jsstring) :
  Forall (fun ch => RegExp.set_matches ic cs ch = true) taken ->
  (forall ch, head rest' = Some ch -> RegExp.set_matches ic cs ch = false) ->
  forall (min : nat) (prev : option N),
    (min <= length taken)%nat ->
    k {| RegExp.before := before_after prev taken; RegExp.rest := rest';
         RegExp.capture1 := cap |} = Some y ->
    RegExp.repeat_set ic cs min prev (taken ++ rest') cap k = Some y.
Proof.
  intros Hall Hnext. induction Hall as [|ch taken Hch _ IH]; intros min prev Hmin Hk.
  - destruct min; [|simpl in Hmin; lia]. simpl.
    destruct rest' as [|c r]; [done|]. simpl. by rewrite (Hnext c).
  - simpl. rewrite Hch. rewrite before_after_cons in Hk.
    rewrite (IH (pred min) (Some ch)); [done| |done]. simpl in Hmin. lia.
Qed.

Lemma search_here (re : RegExp.RegExp) (prev : option N) (input : jsstring)
    (y : RegExp.MatchState) :
  RegExp.matcher (RegExp.source re) (RegExp.ignoreCase re)
    {| RegExp.before := prev; RegExp.rest := input; RegExp.capture1 := None |}
    Some = Some y ->
  RegExp.search re prev input = Some y.
Proof. intros H. destruct input; simpl; by rewrite H. Qed.

(** The tail of the patterns on white space followed by a name that runs
    to the end of the input. *)
Lemma name_tail_matches (ws nm : jsstring) (prev : option N) :
  ws <> [] -> Forall (fun ch => is_white_space ch = true) ws ->
  (2 <= length nm)%nat -> Forall (fun ch => name_char ch = true) nm ->
  clean_ends nm ->
  exists y,
    RegExp.matcher (RegExp.cat name_tail) true
      {| RegExp.before := prev; RegExp.rest := ws ++ nm;
         RegExp.capture1 := None |} Some = Some y
    /\ RegExp.capture1 y = Some nm.
Proof.
  intros Hws Hwhite Hlen Hname [Hhead _]. eexists. split.
  - simpl. apply repeat_set_greedy.
    + eapply Forall_impl; [exact Hwhite|]. intros ch Hch. simpl in Hch.
      by rewrite white_space_matches.
    + intros ch Hch. rewrite white_space_matches. by apply Hhead.
    + destruct ws; [done|]. simpl. lia.
    + simpl. rewrite <- (app_nil_r nm) at 1. apply repeat_set_greedy.
      * exact Hname.
      * done.
      * done.
      * reflexivity.
  - simpl. f_equal. apply take_ge. lia.
Qed.

(** ** Sessions and contexts, field by field *)

Lemma Session_eq (s1 s2 : Session) :
  isSending s1 = isSending s2 -> userContext s1 = userContext s2 ->
  messages s1 = messages s2 -> page s1 = page s2 -> s1 = s2.
Proof. destruct s1, s2. simpl. by intros -> -> -> ->. Qed.

Lemma UserContext_eq (c1 c2 : UserContext) :
  name c1 = name c2 -> pastQuestions c1 = pastQuestions c2 -> c1 = c2.
Proof. destruct c1, c2. simpl. by intros -> ->. Qed.

Lemma join_snoc (sep : jsstring) (parts : list jsstring) (x : jsstring) :
  exists pre, join sep (parts ++ [x]) = pre ++ x.
Proof.
  induction parts as [|p parts [pre IH]]; [by exists []|].
  exists (p ++ sep ++ pre). simpl.
  destruct (parts ++ [x]) as [|q l] eqn:E; [by destruct parts|].
  rewrite IH. by rewrite <- !app_assoc.
Qed.

Lemma contextBlock_ends (c : UserContext) (earlier : list jsstring) (q : jsstring) :
  pastQuestions c = earlier ++ [q] ->
  exists pre, contextBlock c = pre ++ q ++ str ".".
Proof.
  intros Hq. destruct (join_snoc (str "; ") earlier q) as [pre1 Hj1].
  assert (Hparts : exists parts0,
            contextParts c
            = parts0 ++ [str "User previously asked about: " ++ (pre1 ++ q) ++ str "."]).
  { unfold contextParts. rewrite Hq, Hj1, length_app.
    replace (length earlier + length [q] =? 0)%nat with false
      by (symmetry; apply Nat.eqb_neq; simpl; lia).
    unfold push. by eexists. }
  destruct Hparts as [parts0 Hp]. unfold contextBlock. rewrite Hp, length_app.
  replace (length parts0 + length [str "User previously asked about: " ++ (pre1 ++ q) ++ str "."] =? 0)%nat
    with false by (symmetry; apply Nat.eqb_neq; simpl; lia).
  destruct (join_snoc (str " ") parts0
              (str "User previously asked about: " ++ (pre1 ++ q) ++ str "."))
    as [pre2 ->].
  exists (str "Conversation context: " ++ pre2
          ++ str "User previously asked about: " ++ pre1).
  cbn [negb]. by rewrite <- !app_assoc.
Qed.

(** * Further properties: the theorems *)

(** ** The submit handler *)

(** X1. A submit with an input that is empty or all white space is
    ignored: the handler returns the session as it is and sends nothing,
    whether a call is waiting or not. *)
Theorem blank_submit_ignored (w : World)
    (Hblank : Forall (fun ch => is_white_space ch = true)
                (userInput_value (page (session w)))) :
  submit (session w) = (session w, None) /\ step w Submit = w.
Proof.
  assert (E : submit (session w) = (session w, None)).
  { apply submit_ignores. right. unfold truthy_string.
    by rewrite (trim_white _ Hblank). }
  split; [exact E|]. unfold step. rewrite E. by destruct w.
Qed.

Lemma blank_submit_ignored_witness :
  userInput_value (page (session blank_typed)) = [32; 9; 10]%N
  /\ isSending (session blank_typed) = false
  /\ step blank_typed Submit = blank_typed.
Proof.
  split; [reflexivity|]. split; [reflexivity|].
  apply (blank_submit_ignored blank_typed).
  repeat constructor.
Defined.

(** X2. A submit on an idle session whose input has something besides
    white space is accepted: the flag is set, the input field is cleared
    and disabled with the send button, the first message of the transcript
    stays, the trimmed input becomes the last message of the transcript
    (with the role user), the last message of the payload sent, and the
    last of the remembered questions. *)
Theorem accepted_submit (s : Session)
    (Hidle : isSending s = false)
    (Htext : trim (userInput_value (page s)) <> [])
    (Hmsgs : messages s <> []) :
  exists s',
    submit s = (s', Some (buildMessagesWithContext s'))
    /\ isSending s' = true
    /\ userInput_value (page s') = []
    /\ userInput_disabled (page s') = true
    /\ sendBtn_disabled (page s') = true
    /\ head (messages s') = head (messages s)
    /\ last (messages s')
       = Some (Some {| msg_role := user;
                       content := VStr (trim (userInput_value (page s))) |})
    /\ last (buildMessagesWithContext s')
       = Some (Some {| msg_role := user;
                       content := VStr (trim (userInput_value (page s))) |})
    /\ last (pastQuestions (userContext s'))
       = Some (trim (userInput_value (page s))).
Proof.
  set (content := trim (userInput_value (page s))) in *.
  pose proof (submit_accepted_messages s Hidle Htext) as Hm.
  pose proof (submit_accepted_pastQuestions s Hidle Htext) as Hq.
  pose proof (submit_accepted_page s Hidle Htext) as Hp.
  destruct (submit_sends s Hidle (truthy_string_true _ Htext))
    as (s'' & payload & E' & Hbusy).
  destruct (submit_accepted s Hidle Htext) as (s' & E & _).
  rewrite E in E', Hm, Hq, Hp. injection E' as <- _. simpl in Hm, Hq, Hp.
  fold content in Hm, Hq, Hp.
  rewrite trimConversation_messages in Hm. simpl in Hm.
  rewrite trimConversation_pastQuestions in Hq. simpl in Hq.
  rewrite showTypingBubble_page in Hp.
  set (msgs := push (Some {| msg_role := user; content := VStr content |})
                 (messages s)) in Hm.
  assert (Hlast : last (messages s')
                  = Some (Some {| msg_role := user; content := VStr content |})).
  { rewrite Hm. destruct (_ >? 40).
    - rewrite last_cons, (last_slice_neg 40) by lia.
      unfold msgs, push. by rewrite last_snoc.
    - unfold msgs, push. by rewrite last_snoc. }
  assert (Hlen : (2 <= length (messages s'))%nat).
  { rewrite Hm. destruct (Z.gtb_spec (Z.of_nat (length msgs)) 40).
    - simpl. rewrite (slice_neg 40), length_drop by lia. lia.
    - unfold msgs, push. rewrite length_app. simpl.
      destruct (messages s); [done|]. simpl. lia. }
  exists s'. split; [done|]. split; [done|].
  split; [rewrite Hp; by destruct (existsb _ _)|].
  split; [rewrite Hp; by destruct (existsb _ _)|].
  split; [rewrite Hp; by destruct (existsb _ _)|].
  split; [|split; [done|split]].
  - rewrite Hm. unfold msgs, push, index.
    destruct (messages s) as [|x l]; [done|]. by destruct (_ >? 40).
  - unfold buildMessagesWithContext, slice. simpl.
    rewrite !last_cons, last_drop_lt by lia. by rewrite Hlast.
  - rewrite Hq. destruct (_ >? 20).
    + rewrite (last_slice_neg 10) by lia. unfold push. by rewrite last_snoc.
    + unfold push. by rewrite last_snoc.
Qed.

Lemma accepted_submit_witness :
  isSending (session (run start [Typed (str " Which shampoo? ")])) = false
  /\ exists s',
       submit (session (run start [Typed (str " Which shampoo? ")]))
       = (s', Some (buildMessagesWithContext s'))
       /\ last (messages s')
          = Some (Some {| msg_role := user;
                          content := VStr (str "Which shampoo?") |}).
Proof.
  split; [reflexivity|].
  destruct (accepted_submit (session (run start [Typed (str " Which shampoo? ")])))
    as (s' & E & _ & _ & _ & _ & _ & Hlast & _);
    [reflexivity|discriminate|discriminate|].
  exists s'. split; [exact E|exact Hlast].
Defined.

(** X3. The context message of a payload names the question being asked:
    when a submit is accepted, the context text built for the payload ends
    with the trimmed input followed by a full stop, since the input has
    joined the remembered questions before the payload is built. *)
Theorem context_names_current_question (s : Session)
    (Hidle : isSending s = false)
    (Htext : trim (userInput_value (page s)) <> []) :
  exists pre,
    contextBlock (userContext (submit s).1)
    = pre ++ trim (userInput_value (page s)) ++ str ".".
Proof.
  pose proof (submit_accepted_pastQuestions s Hidle Htext) as Hq.
  rewrite trimConversation_pastQuestions in Hq. simpl in Hq.
  assert (Hlast : last (pastQuestions (userContext (submit s).1))
                  = Some (trim (userInput_value (page s)))).
  { rewrite Hq. destruct (_ >? 20).
    - rewrite (last_slice_neg 10) by lia. unfold push. by rewrite last_snoc.
    - unfold push. by rewrite last_snoc. }
  apply last_Some in Hlast as [earlier Hlast].
  by apply (contextBlock_ends _ earlier).
Qed.

Lemma context_names_current_question_witness :
  exists pre,
    contextBlock
      (userContext (submit (session (run start [Typed (str "Which shampoo?")]))).1)
    = pre ++ str "Which shampoo?" ++ str ".".
Proof.
  apply (context_names_current_question
           (session (run start [Typed (str "Which shampoo?")])));
    [reflexivity|discriminate].
Defined.

(** X4. A full exchange. From an idle world with no call waiting and no
    typing bubble shown, typing a text that is not blank, submitting it and
    receiving a reply that is a text leaves the flag false, no call waiting
    and the controls enabled with the input field empty; the transcript is
    the trimmed transcript (with the question appended) followed by the
    assistant's reply, and the chat window has gained exactly the two
    bubbles, the question and the reply, with no typing bubble left. *)
Theorem successful_exchange (w : World) (text : jsstring) (net : Network)
    (answer : jsstring)
    (Hidle : isSending (session w) = false) (Hnone : pending w = [])
    (Hclean : typing_bubbles (chatWindow (page (session w))) = 0%nat)
    (Htext : trim text <> [])
    (Hreply : getOpenAIReply net = Returned (VStr answer)) :
  exists w', run w [Typed text; Submit; Answered 0 net] = w'
    /\ isSending (session w') = false
    /\ pending w' = []
    /\ page (session w')
       = {| userInput_value := []; userInput_disabled := false;
            sendBtn_disabled := false;
            chatWindow := chatWindow (page (session w))
                            ++ [msg bubble_user (VStr (trim text));
                                msg bubble_ai (VStr answer)] |}
    /\ messages (session w')
       = messages (trimConversation None
                     (push_message user (VStr (trim text)) (session w)))
           ++ [Some {| msg_role := assistant; content := VStr answer |}].
Proof.
  eexists. split; [reflexivity|]. unfold run. simpl.
  set (s1 := set_page (set_userInput_value text (page (session w))) (session w)).
  assert (Hidle1 : isSending s1 = false) by done.
  assert (Htext1 : trim (userInput_value (page s1)) <> []) by done.
  pose proof (submit_accepted_messages s1 Hidle1 Htext1) as Hm.
  pose proof (submit_accepted_page s1 Hidle1 Htext1) as Hp.
  destruct (submit_accepted s1 Hidle1 Htext1) as (s' & E & _).
  rewrite E in Hm, Hp |- *. simpl in Hm, Hp. rewrite Hnone. simpl.
  rewrite Hreply. simpl.
  rewrite (accepted_page s1 _ Hclean) in Hp.
  split; [done|]. split; [done|]. split.
  - rewrite Hp. simpl. unfold unlock_input, set_chatWindow, push. simpl. f_equal.
    replace (chatWindow (page (session w))
             ++ [msg bubble_user (VStr (trim text)); typingBubble])
      with ((chatWindow (page (session w)) ++ [msg bubble_user (VStr (trim text))])
            ++ typingBubble :: []) by by rewrite <- app_assoc.
    rewrite remove_typingBubble_first
      by (rewrite typing_bubbles_app, Hclean; done).
    by rewrite app_nil_r, <- app_assoc.
  - unfold push. f_equal. rewrite Hm. by rewrite !trimConversation_messages.
Qed.

Lemma successful_exchange_witness :
  getOpenAIReply (answers 200 reply_body) = Returned (VStr (str "Hello"))
  /\ messages (session (run start [Typed (str "Hi"); Submit;
                                   Answered 0 (answers 200 reply_body)]))
     = [Some base_system;
        Some {| msg_role := user; content := VStr (str "Hi") |};
        Some {| msg_role := assistant; content := VStr (str "Hello") |}]
  /\ chatWindow (page (session (run start [Typed (str "Hi"); Submit;
                                           Answered 0 (answers 200 reply_body)])))
     = [msg bubble_ai (VStr greeting); msg bubble_user (VStr (str "Hi"));
        msg bubble_ai (VStr (str "Hello"))].
Proof.
  assert (H : getOpenAIReply (answers 200 reply_body) = Returned (VStr (str "Hello")))
    by reflexivity.
  split; [exact H|].
  destruct (successful_exchange start (str "Hi") (answers 200 reply_body)
              (str "Hello"))
    as (w' & <- & _ & _ & Hp & Hm); [reflexivity..|discriminate|exact H|].
  split; [exact Hm|]. rewrite Hp. reflexivity.
Defined.

(** ** What holds all along a session *)

(** X5. In every state a session can reach, the controls follow the flag:
    the chat window holds one typing bubble while isSending is true and
    none otherwise, and the input field and the send button are disabled
    exactly while isSending is true. *)
Theorem controls_always_follow_flag (es : list event) :
  controls_follow_flag (session (run start es)).
Proof.
  apply (run_invariant (fun w => controls_follow_flag (session w))).
  - apply step_controls.
  - by repeat split.
Qed.

(** X6. In every state a session can reach, the transcript has at most 42
    messages (at most 41 while a call is waiting), and every payload
    waiting for its reply has at most 42 messages. *)
Theorem transcript_never_exceeds_42 (es : list event) :
  (length (messages (session (run start es))) <= 42)%nat
  /\ (isSending (session (run start es)) = true ->
      (length (messages (session (run start es))) <= 41)%nat)
  /\ Forall (fun payload => (length payload <= 42)%nat) (pending (run start es)).
Proof.
  apply (run_invariant transcript_bounded step_bounded es start).
  split; [by right|]. split; [simpl; lia|]. split; [done|constructor].
Qed.

(** X7. In every state a session can reach, at most 20 questions are
    remembered. *)
Theorem pastQuestions_never_exceed_20 (es : list event) :
  (length (pastQuestions (userContext (session (run start es)))) <= 20)%nat.
Proof.
  apply (run_invariant
           (fun w => (length (pastQuestions (userContext (session w))) <= 20)%nat)).
  - apply step_pastQuestions.
  - simpl. lia.
Qed.

(** X8. In every state a session can reach, every element of the
    transcript, and of every payload waiting for its reply, is a message
    (never undefined) whose content is truthy: no empty question and no
    empty reply is ever stored or sent. *)
Theorem transcript_always_filled (es : list event) :
  Forall filled (messages (session (run start es)))
  /\ Forall (Forall filled) (pending (run start es)).
Proof.
  apply (run_invariant all_filled step_filled es start).
  split; [done|]. split; [|constructor].
  repeat constructor. by eexists _, _.
Qed.

(** ** getOpenAIReply *)

(** X9. The call returns a value only for a response with a status in
    200-299 and a JSON body, and then the value is the truthy
    choices[0].message.content, or else the truthy reply field; in every
    other case, a non-2xx status with a well-formed body included, it
    throws. What it returns is never falsy. *)
Theorem reply_returned_iff (net : Network) (v : value) :
  (getOpenAIReply net = Returned v <->
   exists res data,
     net = Responds res /\ body res = Some data /\ ok res = true
     /\ ((truthy (choice_content data) = true /\ v = choice_content data)
         \/ (truthy (choice_content data) = false
             /\ truthy (reply_field data) = true /\ v = reply_field data)))
  /\ (getOpenAIReply net = Returned v -> truthy v = true).
Proof.
  split; [|apply returned_truthy]. split.
  - destruct net as [|[st [data|]]]; try done.
    unfold getOpenAIReply. simpl.
    destruct (ok {| status := st; body := Some data |}) eqn:Hok; [|done].
    simpl. fold (choice_content data). fold (reply_field data).
    intros H. exists {| status := st; body := Some data |}, data.
    split; [done|]. split; [done|]. split; [done|].
    destruct (truthy (choice_content data)) eqn:Hc.
    + left. split; [done|]. by injection H.
    + destruct (truthy (reply_field data)) eqn:Hr; [|done].
      right. split; [done|]. split; [done|]. by injection H.
  - intros ([st b] & data & -> & Hb & Hok & H). simpl in Hb. subst b.
    unfold getOpenAIReply. simpl. rewrite Hok. simpl.
    fold (choice_content data). fold (reply_field data).
    destruct H as [[Hc ->]|(Hc & Hr & ->)]; rewrite Hc; [done|]. by rewrite Hr.
Qed.

(** ** The typing bubble *)

(** X10. Showing the typing bubble twice shows it once, whatever the chat
    window holds; and when no typing bubble is in the chat window, showing
    it adds exactly one, at the end, and hiding it again gives back the
    session as it was. *)
Theorem typing_bubble_show_hide (s : Session) :
  showTypingBubble (showTypingBubble s) = showTypingBubble s
  /\ (typing_bubbles (chatWindow (page s)) = 0%nat ->
      chatWindow (page (showTypingBubble s))
      = chatWindow (page s) ++ [typingBubble]
      /\ hideTypingBubble (showTypingBubble s) = s).
Proof.
  destruct s as [busy ctx msgs [v d1 d2 w]].
  assert (E' : existsb is_typingBubble (w ++ [typingBubble]) = true)
    by (rewrite existsb_app; simpl; apply orb_true_r).
  split.
  - unfold showTypingBubble. simpl.
    destruct (existsb is_typingBubble w) eqn:E; simpl.
    + by rewrite E.
    + unfold push. by rewrite E'.
  - simpl. intros Hnone.
    assert (E : existsb is_typingBubble w = false)
      by by rewrite existsb_typingBubble, Hnone.
    unfold showTypingBubble, hideTypingBubble. simpl. rewrite !E. simpl.
    split; [done|].
    unfold set_page, set_chatWindow, push. simpl.
    by rewrite remove_typingBubble_first, app_nil_r.
Qed.

Lemma typing_bubble_show_hide_witness :
  typing_bubbles (chatWindow (page init)) = 0%nat
  /\ hideTypingBubble (showTypingBubble init) = init
  /\ showTypingBubble (showTypingBubble (session asked))
     = showTypingBubble (session asked).
Proof.
  split; [reflexivity|]. split.
  - apply (proj2 (typing_bubble_show_hide init)). reflexivity.
  - apply (proj1 (typing_bubble_show_hide (session asked))).
Defined.

(** ** trimConversation *)

(** X11. The remembered questions under trimConversation, whatever the
    maximum given for the transcript: more than 20 questions are cut down
    to the 10 most recent ones, in order; 20 or fewer are left as they
    are. The stored name is not touched. *)
Theorem trim_keeps_last_10_questions (m : option Z) (s : Session) :
  ((20 < length (pastQuestions (userContext s)))%nat ->
   pastQuestions (userContext (trimConversation m s))
   = last_n 10 (pastQuestions (userContext s))
   /\ length (pastQuestions (userContext (trimConversation m s))) = 10%nat)
  /\ ((length (pastQuestions (userContext s)) <= 20)%nat ->
      pastQuestions (userContext (trimConversation m s))
      = pastQuestions (userContext s))
  /\ name (userContext (trimConversation m s)) = name (userContext s).
Proof.
  rewrite trimConversation_pastQuestions.
  split; [|split; [|apply trimConversation_fields]].
  - intros Hlen.
    destruct (Z.gtb_spec (Z.of_nat (length (pastQuestions (userContext s)))) 20);
      [|lia].
    rewrite (slice_neg 10) by lia. split; [done|].
    rewrite length_drop. lia.
  - intros Hlen.
    destruct (Z.gtb_spec (Z.of_nat (length (pastQuestions (userContext s)))) 20);
      [lia|done].
Qed.

(** X12. Trimming twice is trimming once, for the default maximum and for
    every maximum of at least 1. *)
Theorem trim_idempotent (m : option Z) (s : Session)
    (Hmax : 1 <= default 40 m) :
  trimConversation m (trimConversation m s) = trimConversation m s.
Proof.
  apply Session_eq.
  - by rewrite !(proj1 (trimConversation_fields _ _)).
  - apply UserContext_eq.
    + by rewrite !(proj1 (proj2 (trimConversation_fields _ _))).
    + rewrite (trimConversation_pastQuestions m (trimConversation m s)).
      pose proof (trim_pastQuestions_length m s) as Hlen.
      destruct (Z.gtb_spec
                  (Z.of_nat (length (pastQuestions
                                       (userContext (trimConversation m s))))) 20);
        [lia|done].
  - rewrite (trimConversation_messages m (trimConversation m s)).
    rewrite trimConversation_messages.
    set (k := default 40 m) in *. set (l := messages s).
    destruct (Z.gtb_spec (Z.of_nat (length l)) k) as [Hlong|Hshort].
    + rewrite (slice_neg k l) by done.
      set (x := index l 0). set (tl := drop (length l - Z.to_nat k) l).
      assert (Htl : length tl = Z.to_nat k)
        by (unfold tl; rewrite length_drop; lia).
      destruct (Z.gtb_spec (Z.of_nat (length (x :: tl))) k); [|done].
      rewrite (slice_neg k) by done. simpl. rewrite Htl.
      replace (S (Z.to_nat k) - Z.to_nat k)%nat with 1%nat by lia. done.
    + destruct (Z.gtb_spec (Z.of_nat (length l)) k); [lia|done].
  - by rewrite !(proj2 (proj2 (trimConversation_fields _ _))).
Qed.

Lemma trim_idempotent_witness :
  1 <= default 40 None
  /\ length (messages (after_appends 45)) = 46%nat
  /\ trimConversation None (trimConversation None (after_appends 45))
     = trimConversation None (after_appends 45).
Proof.
  split; [simpl; lia|]. split; [reflexivity|].
  apply (trim_idempotent None (after_appends 45)). simpl. lia.
Defined.

(** ** The theme *)

Lemma toggle_click_button (t : Theme) (button : Toggle) :
  darkToggle t = Some button ->
  toggle_click t
  = {| dark_mode := negb (dark_mode t);
       darkToggle := Some (label_for (negb (dark_mode t)));
       localStorage :=
         <[str "theme" := stored_for (negb (dark_mode t))]> (localStorage t) |}.
Proof.
  intros H. unfold toggle_click, syncToggleLabel. by rewrite H.
Qed.

Lemma load_button (body_dark : bool) (button : Toggle)
    (storage : gmap (list N) (list N)) :
  load body_dark (Some button) storage
  = {| dark_mode := bool_decide (storage !! str "theme" = Some (str "dark"));
       darkToggle :=
         Some (label_for (bool_decide (storage !! str "theme" = Some (str "dark"))));
       localStorage := storage |}.
Proof. done. Qed.

(** X13. A click on the toggle flips the mode, stores the new mode under
    the key theme and under no other key, and sets the label and
    aria-pressed of the button for the new mode; a second click brings the
    mode back. *)
Theorem theme_click (t : Theme) (button : Toggle)
    (Hbutton : darkToggle t = Some button) :
  dark_mode (toggle_click t) = negb (dark_mode t)
  /\ localStorage (toggle_click t) !! str "theme"
     = Some (stored_for (dark_mode (toggle_click t)))
  /\ (forall k, k <> str "theme" ->
        localStorage (toggle_click t) !! k = localStorage t !! k)
  /\ darkToggle (toggle_click t) = Some (label_for (dark_mode (toggle_click t)))
  /\ dark_mode (toggle_click (toggle_click t)) = dark_mode t.
Proof.
  rewrite (toggle_click_button t button Hbutton). simpl.
  split; [done|]. split; [by rewrite lookup_insert_eq|].
  split; [intros k Hk; by rewrite lookup_insert_ne|]. split; [done|].
  by destruct (dark_mode t).
Qed.

Lemma theme_click_witness :
  dark_mode light_page = false
  /\ dark_mode (toggle_click light_page) = true
  /\ localStorage (toggle_click light_page) !! str "theme" = Some (str "dark").
Proof.
  split; [reflexivity|].
  destruct (theme_click light_page
              {| textContent := str "Dark Mode"; aria_pressed := str "false" |}
              eq_refl) as (Hmode & Hstored & _).
  split; [exact Hmode|]. rewrite Hstored, Hmode. reflexivity.
Defined.

(** X14. The choice survives a new load of the page: after a click, a page
    loaded with the storage the click left comes up in the mode the click
    chose, with the button labelled for it, whatever the document's own
    body class and button text, and without writing to the storage. *)
Theorem theme_survives_reload (t : Theme) (button : Toggle)
    (Hbutton : darkToggle t = Some button)
    (body_dark : bool) (button' : Toggle) :
  dark_mode (load body_dark (Some button') (localStorage (toggle_click t)))
  = dark_mode (toggle_click t)
  /\ darkToggle (load body_dark (Some button') (localStorage (toggle_click t)))
     = darkToggle (toggle_click t)
  /\ localStorage (load body_dark (Some button') (localStorage (toggle_click t)))
     = localStorage (toggle_click t).
Proof.
  rewrite (toggle_click_button t button Hbutton), load_button. simpl.
  rewrite lookup_insert_eq.
  by destruct (dark_mode t).
Qed.

Lemma theme_survives_reload_witness :
  dark_mode (load false (Some (label_for false))
               (localStorage (toggle_click light_page))) = true.
Proof.
  rewrite (proj1 (theme_survives_reload light_page
                    {| textContent := str "Dark Mode"; aria_pressed := str "false" |}
                    eq_refl false (label_for false))).
  reflexivity.
Defined.

(** X15. A loaded page is dark exactly when the stored theme is the text
    "dark" (nothing stored, "light" or anything else gives the light
    mode); after any number of clicks the mode is the loaded one flipped
    that many times, the button is labelled for the mode, and as soon as
    one click was made the stored theme is the mode. *)
Theorem theme_after_clicks (n : nat) (body_dark : bool) (button : Toggle)
    (storage : gmap (list N) (list N)) :
  dark_mode (Nat.iter n toggle_click (load body_dark (Some button) storage))
  = xorb (bool_decide (storage !! str "theme" = Some (str "dark"))) (Nat.odd n)
  /\ darkToggle (Nat.iter n toggle_click (load body_dark (Some button) storage))
     = Some (label_for
               (dark_mode (Nat.iter n toggle_click
                             (load body_dark (Some button) storage))))
  /\ ((0 < n)%nat ->
      localStorage (Nat.iter n toggle_click (load body_dark (Some button) storage))
        !! str "theme"
      = Some (stored_for
                (dark_mode (Nat.iter n toggle_click
                              (load body_dark (Some button) storage))))).
Proof.
  induction n as [|n (IHmode & IHlabel & _)].
  - rewrite load_button. simpl. split; [by rewrite xorb_false_r|].
    split; [done|lia].
  - rewrite Nat.iter_succ.
    set (t := Nat.iter n toggle_click (load body_dark (Some button) storage)) in *.
    rewrite (toggle_click_button t _ IHlabel). simpl.
    rewrite lookup_insert_eq.
    split; [|done]. rewrite IHmode, Nat.odd_succ, <- Nat.negb_odd.
    by destruct (bool_decide _), (Nat.odd n).
Qed.

(** ** The name detector *)

(** X16. Under the flag i, the set [A-Za-zÀ-ÖØ-öø-ÿ' -] of the name
    patterns matches exactly the ASCII letters, the Latin-1 letters
    U+00C0-U+00D6, U+00D8-U+00F6 and U+00F8-U+00FF, the character U+0178
    (the upper-case form of U+00FF, which the flag lets in), the
    apostrophe, the space and the hyphen: no digit, no punctuation, no
    letter of another script. *)
Theorem name_chars_listed (ch : N) : name_char ch = listed_name_char ch.
Proof.
  destruct (N.lt_ge_cases ch 256) as [Hlow|Hhigh].
  - revert ch Hlow. apply agree_below_256. vm_compute. reflexivity.
  - unfold name_char. rewrite set_matches_above by done.
    assert (Hlisted : listed_name_char ch = (ch =? 376)%N).
    { unfold listed_name_char.
      repeat match goal with
             | |- context [(?a <=? ?b)%N] => destruct (N.leb_spec a b); try lia
             end; simpl;
      repeat match goal with
             | |- context [(?a =? ?b)%N] => destruct (N.eqb_spec a b); try lia
             end; done. }
    rewrite Hlisted.
    assert (Hall : Forall (fun a => (a < 256)%N \/ a = 376%N)
                     (RegExp.Canonicalize true <$> (name_chars ≫= RegExp.members))).
    { apply Forall_forall. intros a Ha.
      assert (Hb : forallb (fun a => (a <? 256)%N || (a =? 376)%N)
                     (RegExp.Canonicalize true <$> (name_chars ≫= RegExp.members))
                   = true) by (vm_compute; reflexivity).
      rewrite forallb_forall in Hb. apply list_elem_of_In, Hb in Ha.
      apply orb_true_iff in Ha as [Ha|Ha]; [left; by apply N.ltb_lt|right; by apply N.eqb_eq]. }
    destruct (N.eqb_spec ch 376) as [->|Hne].
    + vm_compute. reflexivity.
    + apply bool_decide_eq_false_2. intros Hin.
      rewrite Forall_forall in Hall. destruct (Hall ch Hin); lia.
Qed.

(** X17. The name detector changes nothing but the stored name; and a name
    it stores is what a pattern captured, trimmed: it is made of
    characters of the captured set only and has no white space at either
    end. *)
Theorem detected_name_is_clean (message : jsstring) (s : Session) :
  isSending (detectAndStoreName message s) = isSending s
  /\ messages (detectAndStoreName message s) = messages s
  /\ page (detectAndStoreName message s) = page s
  /\ pastQuestions (userContext (detectAndStoreName message s))
     = pastQuestions (userContext s)
  /\ (detectAndStoreName message s = s
      \/ exists n,
           name (userContext (detectAndStoreName message s)) = Some n
           /\ Forall (fun ch => name_char ch = true) n
           /\ clean_ends n).
Proof.
  destruct (detectAndStoreName_fields message s) as (Hs & Hm & Hp).
  split; [done|]. split; [done|]. split; [done|].
  split; [apply detectAndStoreName_pastQuestions|].
  unfold detectAndStoreName. destruct (name_is_set (userContext s)); [by left|].
  destruct (detect_loop_cases patterns message (userContext s))
    as [E|(re & g & Hre & Hmatch & E)]; rewrite E.
  - left. by destruct s.
  - right. exists (trim g). split; [done|]. split; [|apply trim_clean_ends].
    destruct (String_match_capture message re g Hre Hmatch) as [_ Hall].
    destruct (trim_split g) as (pre & post & Hg). rewrite Hg in Hall.
    apply Forall_app in Hall as [_ Hall]. by apply Forall_app in Hall as [Hall _].
Qed.

(** X18. A message that begins with "my name is" (in any case of the
    letters), then white space, then a name that runs to the end of the
    message, stores that name when none is set: the name being at least
    two characters of the captured set, with no white space at either
    end. *)
Theorem my_name_is_stores_name (s : Session) (intro ws nm : jsstring)
    (Hunset : name_is_set (userContext s) = false)
    (Hintro : same_ignoring_case (str "my name is") intro)
    (Hws : ws <> []) (Hwhite : Forall (fun ch => is_white_space ch = true) ws)
    (Hlen : (2 <= length nm)%nat)
    (Hname : Forall (fun ch => name_char ch = true) nm)
    (Hends : clean_ends nm) :
  detectAndStoreName (intro ++ ws ++ nm) s
  = set_userContext
      {| name := Some nm; pastQuestions := pastQuestions (userContext s) |} s.
Proof.
  unfold detectAndStoreName. rewrite Hunset. f_equal.
  destruct (name_tail_matches ws nm (before_after None intro)
              Hws Hwhite Hlen Hname Hends) as (y & Hy & Hcap).
  assert (Hmatch : RegExp.String_match (intro ++ ws ++ nm)
                     {| RegExp.source :=
                          RegExp.cat (RegExp.lit "my name is" :: name_tail);
                        RegExp.ignoreCase := true |}
                   = Some (Some nm)).
  { unfold RegExp.String_match. rewrite (search_here _ _ _ y); [simpl; by rewrite Hcap|].
    cbn [RegExp.source RegExp.ignoreCase RegExp.cat foldr RegExp.matcher].
    unfold RegExp.lit. by rewrite (matcher_literal _ intro _ _ _ Hintro). }
  unfold patterns. cbn [detect_loop]. rewrite Hmatch.
  rewrite truthy_string_true by (destruct nm; [simpl in Hlen; lia|done]).
  by rewrite (trim_id nm Hends).
Qed.

Lemma my_name_is_stores_name_witness :
  name_is_set (userContext init) = false
  /\ detectAndStoreName (str "My name is Jean-Luc") init
     = set_userContext
         {| name := Some (str "Jean-Luc");
            pastQuestions := pastQuestions (userContext init) |} init.
Proof.
  split; [reflexivity|].
  apply (my_name_is_stores_name init (str "My name is") (str " ") (str "Jean-Luc")).
  - reflexivity.
  - repeat constructor.
  - discriminate.
  - repeat constructor.
  - simpl. lia.
  - repeat constructor.
  - split; intros ch [= <-]; reflexivity.
Defined.
